(** * Emotion Tracker Wristband: the sampling and classification core

    A shallow embedding of [src/app/page.tsx]: the sensor simulator
    [generateSensorData], the linear classifier [classifyEmotion], the
    bootstrap of the history, the interval callback that appends to it,
    the summary values computed from it ([emotionCounts], the dominant
    emotion, [pieData], [currentEmotion]) and the export of the history
    as JSON text ([exportData]).

    The dashboard is modelled over exact rationals ([Q]): the arithmetic
    of the source is kept operation for operation, without the rounding
    of IEEE-754 doubles, and what is proved of it are bounds, shapes and
    counts that do not depend on that rounding.  The classifier, whose
    label and confidence do depend on it, is modelled a second time in
    module [Binary64] over binary64 floating-point numbers.
    [Math.random()] is an oracle [random] read through a counter,
    [Date.now()] is a parameter [now]. *)

From Stdlib Require Import QArith Qround Qabs Qminmax ZArith NArith List String Ascii
  Bool Lia Lqa Floats.
Import ListNotations.
Open Scope string_scope.
Open Scope list_scope.
Open Scope Q_scope.
Set Warnings "-inexact-float".

(** ** The fragment of JavaScript the program uses *)

Module Js.

(** Exceptions the built-ins used here can raise. *)
Inductive exn : Type := TypeError.

(** Outcome of evaluating an expression: a value or a thrown exception. *)
Inductive completion (A : Type) : Type :=
| Normal (a : A)
| Throw (e : exn).

Arguments Normal {A} a.
Arguments Throw {A} e.

(** Computations that may call [Math.random()]: the state is the number
    of draws made so far. *)
Definition M (A : Type) : Type := nat -> completion (A * nat).

Definition ret {A} (a : A) : M A := fun k => Normal (a, k).

Definition bind {A B} (m : M A) (f : A -> M B) : M B :=
  fun k => match m k with
           | Normal (a, k') => f a k'
           | Throw e => Throw e
           end.

Definition lift {A} (c : completion A) : M A :=
  fun k => match c with
           | Normal a => Normal (a, k)
           | Throw e => Throw e
           end.

(** [a > b] on numbers. *)
Definition gt (a b : Q) : bool := negb (Qle_bool a b).

(** [v || d] where [v] is a number or [undefined]: [undefined] and [0]
    are falsy. *)
Definition num_or (v : option Q) (d : Q) : Q :=
  match v with
  | Some x => if Qeq_bool x 0 then d else x
  | None => d
  end.

(** [Number(x.toFixed(digits))] for a magnitude below [10^21]: the sign
    is set aside, the magnitude is rounded to the nearest multiple of
    [10^-digits], the larger one when two are equally near. *)
Definition toFixed (digits : nat) (x : Q) : Q :=
  let p := (10 ^ Z.of_nat digits)%Z in
  let n := Qfloor (Qabs x * inject_Z p + 0.5) in
  Qred ((if Qle_bool 0 x then n else (- n)%Z) # Z.to_pos p).

(** [arr.reduce(f)] without an initial value: the first element seeds
    the accumulator; on an empty array it throws a TypeError. *)
Definition reduce {A} (f : A -> A -> A) (arr : list A) : completion A :=
  match arr with
  | [] => Throw TypeError
  | x :: xs => Normal (fold_left f xs x)
  end.

(** [arr.slice(-n)]: the last [n] elements, all of them when there are
    fewer. *)
Definition slice_last {A} (n : nat) (arr : list A) : list A :=
  skipn (List.length arr - n) arr.

(** Plain objects with string keys, as the list of their entries in
    insertion order: the order in which [Object.entries] enumerates keys
    that are not array indices.  Keys inherited from [Object.prototype]
    are not modelled. *)
Definition object (V : Type) : Type := list (string * V).

Fixpoint get {V} (o : object V) (key : string) : option V :=
  match o with
  | [] => None
  | (k, v) :: o' => if String.eqb key k then Some v else get o' key
  end.

(** [o[key] = v]: an existing key keeps its place, a new key goes last. *)
Fixpoint set {V} (o : object V) (key : string) (v : V) : object V :=
  match o with
  | [] => [(key, v)]
  | (k, v0) :: o' =>
      if String.eqb key k then (k, v) :: o' else (k, v0) :: set o' key v
  end.

Definition entries {V} (o : object V) : list (string * V) := o.

End Js.

Import Js.

Notation "x <- m ;; k" := (bind m (fun x => k))
  (at level 61, m at next level, right associativity).

(** ** Types *)

Module SensorData.
Record t : Type := mk {
  timestamp : Z;
  heartRate : Q;
  eda : Q;
  temperature : Q;
  emotion : string;
  confidence : Q
}.
End SensorData.

Inductive Icon : Type := Smile | Frown | Meh | Brain.

Module EmotionState.
Record t : Type := mk {
  emotion : string;
  confidence : Q;
  color : string;
  icon : Icon;
  description : string
}.
End EmotionState.

(** The object [{ emotion, confidence }] returned by the classifier. *)
Module Classified.
Record t : Type := mk {
  emotion : string;
  confidence : Q
}.
End Classified.

(** ** Emotion configurations *)

Definition EMOTIONS : object EmotionState.t :=
  [ ("calm", EmotionState.mk "Calm" 0 "#10B981" Smile "Relaxed and peaceful state");
    ("happy", EmotionState.mk "Happy" 0 "#F59E0B" Smile "Positive and joyful state");
    ("stressed", EmotionState.mk "Stressed" 0 "#EF4444" Frown "High tension and anxiety");
    ("focused", EmotionState.mk "Focused" 0 "#3B82F6" Brain "Concentrated and alert");
    ("neutral", EmotionState.mk "Neutral" 0 "#6B7280" Meh "Balanced emotional state") ].

(** ** Classification *)

(** The local array [features] of [classifyEmotion]. *)
Definition features (heartRate eda temperature : Q) : list Q :=
  [ (heartRate - 70) / 50;
    (eda - 5) / 10;
    (temperature - 36.5) / 2 ].

(** The local object [scores] of [classifyEmotion], over the rationals;
    [Binary64.scores] is the same object as the doubles compute it. *)
Definition scores (heartRate eda temperature : Q) : object Q :=
  let f := fun i => nth i (features heartRate eda temperature) 0 in
  let calmScore := - f 0%nat * 0.5 - f 1%nat * 0.3 + f 2%nat * 0.2 in
  let happyScore := f 0%nat * 0.3 - f 1%nat * 0.2 + f 2%nat * 0.4 in
  let stressedScore := f 0%nat * 0.8 + f 1%nat * 0.6 - f 2%nat * 0.1 in
  let focusedScore := f 0%nat * 0.4 + f 1%nat * 0.1 + f 2%nat * 0.1 in
  let neutralScore := - Qabs (f 0%nat) - Qabs (f 1%nat) - Qabs (f 2%nat) in
  [ ("calm", calmScore);
    ("happy", happyScore);
    ("stressed", stressedScore);
    ("focused", focusedScore);
    ("neutral", neutralScore) ].

(** The reducer [(a, b) => a[1] > b[1] ? a : b], used on scores and on
    counts. *)
Definition greater {K} (a b : K * Q) : K * Q :=
  if gt (snd a) (snd b) then a else b.

Section Simulation.

(** The value returned by the [k]-th call of [Math.random()]. *)
Variable random : nat -> Q.

Definition Math_random : M Q := fun k => Normal (random k, S k).

(** The classifier over the rationals; [Binary64.classifyEmotion] is the
    classifier on doubles. *)
Definition classifyEmotion (heartRate eda temperature : Q) : M Classified.t :=
  maxEntry <- lift (reduce greater (entries (scores heartRate eda temperature))) ;;
  r <- Math_random ;;
  let confidence := Qmin (94 + r * 6) 100 in
  ret (Classified.mk (fst maxEntry) confidence).

(** ** Sensor data generation *)

(** The simulator over the rationals: the perturbations, the clamps and
    the roundings of the source, each applied to the exact value. *)
Definition generateSensorData (prevData : option SensorData.t) (now : Z)
  : M SensorData.t :=
  let baseHeartRate := 72 in
  let baseEDA := 6 in
  let baseTemp := 36.8 in
  r1 <- Math_random ;;
  let heartRate := Qmax 50 (Qmin 120
    (num_or (option_map SensorData.heartRate prevData) baseHeartRate
     + (r1 - 0.5) * 8)) in
  r2 <- Math_random ;;
  let eda := Qmax 2 (Qmin 15
    (num_or (option_map SensorData.eda prevData) baseEDA
     + (r2 - 0.5) * 2)) in
  r3 <- Math_random ;;
  let temperature := Qmax 35.5 (Qmin 38.5
    (num_or (option_map SensorData.temperature prevData) baseTemp
     + (r3 - 0.5) * 0.4)) in
  c <- classifyEmotion heartRate eda temperature ;;
  ret (SensorData.mk
         now
         (toFixed 1 heartRate)
         (toFixed 2 eda)
         (toFixed 1 temperature)
         (Classified.emotion c)
         (toFixed 1 (Classified.confidence c))).

(** ** The dashboard state *)

Record AppState : Type := mkApp {
  isTracking : bool;
  sensorData : list SensorData.t;
  currentReading : option SensorData.t;
  batteryLevel : Q;
  isConnected : bool
}.

(** The values given to [useState]. *)
Definition initialState : AppState :=
  mkApp false [] None 85 true.

(** [lastReading.timestamp = ts] on the freshly generated reading. *)
Definition set_timestamp (d : SensorData.t) (ts : Z) : SensorData.t :=
  SensorData.mk ts (SensorData.heartRate d) (SensorData.eda d)
    (SensorData.temperature d) (SensorData.emotion d)
    (SensorData.confidence d).

(** The loop [for (let i = 0; i < 50; i++)] of the first effect, with
    [n] iterations left to run from index [i]. *)
Fixpoint initLoop (n : nat) (i : Z) (now : Z) (lastReading : SensorData.t)
  (initialData : list SensorData.t) : M (list SensorData.t * SensorData.t) :=
  match n with
  | O => ret (initialData, lastReading)
  | S n' =>
      generated <- generateSensorData (Some lastReading) now ;;
      let lastReading := set_timestamp generated (now - (50 - i) * 30000)%Z in
      initLoop n' (i + 1)%Z now lastReading (initialData ++ [lastReading])
  end.

(** "Initialize with sample data": the effect that runs once on mount;
    every [Date.now()] of the effect reads the same instant [now]. *)
Definition initialize (now : Z) (st : AppState) : M AppState :=
  lastReading <- generateSensorData None now ;;
  r <- initLoop 50 0%Z now lastReading [] ;;
  ret (mkApp (isTracking st) (fst r) (Some (snd r))
         (batteryLevel st) (isConnected st)).

(** The updater [prev => [...prev.slice(-100), newReading]]. *)
Definition appendReading (prev : list SensorData.t) (newReading : SensorData.t)
  : list SensorData.t :=
  slice_last 100 prev ++ [newReading].

(** "Real-time data simulation": the body of the interval callback, which
    is scheduled only while [isTracking] holds.  The battery level is
    drained in exact arithmetic; in doubles the repeated subtraction of
    0.1 is rounded each time, so only bounds on the level are stated. *)
Definition tick (now : Z) (st : AppState) : M AppState :=
  newReading <- generateSensorData (currentReading st) now ;;
  ret (mkApp (isTracking st)
         (appendReading (sensorData st) newReading)
         (Some newReading)
         (Qmax 0 (batteryLevel st - 0.1))
         (isConnected st)).

End Simulation.

(** The click handler of the tracking button: [setIsTracking(!isTracking)]. *)
Definition toggleTracking (st : AppState) : AppState :=
  mkApp (negb (isTracking st)) (sensorData st) (currentReading st)
    (batteryLevel st) (isConnected st).

(** ** Values derived from the history *)

(** "Emotion distribution data": [sensorData.reduce(..., {})]. *)
Definition emotionCounts (sensorData : list SensorData.t) : object Q :=
  fold_left
    (fun acc data =>
       set acc (SensorData.emotion data)
         (num_or (get acc (SensorData.emotion data)) 0 + 1))
    sensorData [].

(** The "Dominant Emotion" cell of the session summary. *)
Definition dominantEmotion (sensorData : list SensorData.t) : completion string :=
  if (0 <? List.length sensorData)%nat then
    match reduce greater (entries (emotionCounts sensorData)) with
    | Normal e => Normal (fst e)
    | Throw e => Throw e
    end
  else Normal "N/A".

(** [v || d] where [v] is a string or [undefined]: [undefined] and the
    empty string are falsy. *)
Definition str_or (v : option string) (d : string) : string :=
  match v with
  | Some s => if String.eqb s "" then d else s
  | None => d
  end.

Record PieDatum : Type := mkPie {
  name : string;
  value : Q;
  fill : string
}.

Definition pieData (sensorData : list SensorData.t) : list PieDatum :=
  map (fun e : string * Q =>
         let (emotion, count) := e in
         mkPie
           (str_or (option_map EmotionState.emotion (get EMOTIONS emotion)) emotion)
           count
           (str_or (option_map EmotionState.color (get EMOTIONS emotion)) "#6B7280"))
      (entries (emotionCounts sensorData)).

(** [currentReading ? EMOTIONS[currentReading.emotion] : EMOTIONS.neutral];
    [None] is [undefined]. *)
Definition currentEmotion (currentReading : option SensorData.t)
  : option EmotionState.t :=
  match currentReading with
  | Some r => get EMOTIONS (SensorData.emotion r)
  | None => get EMOTIONS "neutral"
  end.

(** ** Vocabulary of the statements *)

(** The keys of [EMOTIONS], in the order they are written. *)
Definition labels : list string :=
  ["calm"; "happy"; "stressed"; "focused"; "neutral"].

(** The channel domains the README documents for [SensorData]. *)
Definition in_bounds (s : SensorData.t) : Prop :=
  50 <= SensorData.heartRate s <= 120 /\
  2 <= SensorData.eda s <= 15 /\
  35.5 <= SensorData.temperature s <= 38.5.

(** States the dashboard can be in: mounted, then any number of clicks
    on the tracking button and of ticks, a tick firing only while
    tracking; the index counts the draws made so far. *)
Inductive reachable (random : nat -> Q) : AppState -> nat -> Prop :=
| reach_mount now st k :
    initialize random now initialState 0%nat = Normal (st, k) ->
    reachable random st k
| reach_tick now st k st' k' :
    reachable random st k ->
    isTracking st = true ->
    tick random now st k = Normal (st', k') ->
    reachable random st' k'
| reach_toggle st k :
    reachable random st k ->
    reachable random (toggleTracking st) k.


(** How many retained samples carry the label [key]. *)
Definition occurrences (key : string) (sensorData : list SensorData.t) : nat :=
  count_occ string_dec (map SensorData.emotion sensorData) key.

(** Histories whose labels are keys of [EMOTIONS] (for such keys the
    entries of [emotionCounts] are enumerated in insertion order). *)
Definition labelled (sensorData : list SensorData.t) : Prop :=
  Forall (fun s => In (SensorData.emotion s) labels) sensorData.

(** What the object built by [emotionCounts] holds: one entry per label
    of the history, valued with its number of occurrences, the keys in
    the order in which the labels first occur. *)
Definition counts_of (h : list SensorData.t) (o : object Q) : Prop :=
  NoDup (map fst o) /\
  (forall key, In key (map fst o) <-> In key (map SensorData.emotion h)) /\
  (forall key v, In (key, v) o ->
                 v == inject_Z (Z.of_nat (occurrences key h))) /\
  (forall K1 key K2,
     map fst o = K1 ++ key :: K2 ->
     exists h1 s h2,
       h = h1 ++ s :: h2 /\
       SensorData.emotion s = key /\
       ~ In key (map SensorData.emotion h1) /\
       forall k', In k' K1 -> In k' (map SensorData.emotion h1)).

(** A reading with the given label and timestamp, the other fields at
    the baseline. *)
Definition reading (ts : Z) (emotion : string) : SensorData.t :=
  SensorData.mk ts 72 6 (184 # 5) emotion 97.

(** [n] firings of the interval callback. *)
Fixpoint ticks (random : nat -> Q) (n : nat) (now : Z) (st : AppState)
  : M AppState :=
  match n with
  | O => ret st
  | S n' => st' <- tick random now st ;; ticks random n' now st'
  end.

(** A source of draws that always returns the midpoint. *)
Definition midpoint : nat -> Q := fun _ => 0.5.


(** ** The rest of the dashboard *)

(** [a < b] on numbers. *)
Definition num_lt (a b : Q) : bool := negb (Qle_bool b a).

(** [a / b] on numbers when the quotient is a finite number; [None]
    stands for [NaN] and the infinities, which a zero divisor gives. *)
Definition num_div (a b : Q) : option Q :=
  if Qeq_bool b 0 then None else Some (a / b).

(** [arr.length] as a number. *)
Definition num_length {A} (arr : list A) : Q :=
  inject_Z (Z.of_nat (List.length arr)).

(** "Physiological profile data for radar chart": the three averages. *)
Definition avgHeartRate (sensorData : list SensorData.t) : option Q :=
  num_div (fold_left (fun sum d => sum + SensorData.heartRate d) sensorData 0)
          (num_length sensorData).

Definition avgEDA (sensorData : list SensorData.t) : option Q :=
  num_div (fold_left (fun sum d => sum + SensorData.eda d) sensorData 0)
          (num_length sensorData).

Definition avgTemp (sensorData : list SensorData.t) : option Q :=
  num_div (fold_left (fun sum d => sum + SensorData.temperature d) sensorData 0)
          (num_length sensorData).

Module RadarDatum.
Record t : Type := mk {
  subject : string;
  current : Q;
  average : option Q;
  fullMark : Q
}.
End RadarDatum.

Definition radarData (sensorData : list SensorData.t)
  (currentReading : option SensorData.t) : list RadarDatum.t :=
  [ RadarDatum.mk "Heart Rate"
      (num_or (option_map SensorData.heartRate currentReading) 0)
      (avgHeartRate sensorData)
      120;
    RadarDatum.mk "EDA"
      (num_or (option_map SensorData.eda currentReading) 0)
      (avgEDA sensorData)
      15;
    RadarDatum.mk "Temperature"
      (num_or (option_map SensorData.temperature currentReading) 0 * 10)
      (option_map (fun a => a * 10) (avgTemp sensorData))
      380 ].

(** The status badges of the three "Current Status" cards: the [variant]
    attribute and the text are two separate conditional expressions. *)
Definition heartRateVariant (currentReading : option SensorData.t) : string :=
  if gt (num_or (option_map SensorData.heartRate currentReading) 0) 100
  then "destructive"
  else if num_lt (num_or (option_map SensorData.heartRate currentReading) 0) 60
       then "secondary" else "default".

Definition heartRateStatus (currentReading : option SensorData.t) : string :=
  if gt (num_or (option_map SensorData.heartRate currentReading) 0) 100
  then "High"
  else if num_lt (num_or (option_map SensorData.heartRate currentReading) 0) 60
       then "Low" else "Normal".

Definition edaVariant (currentReading : option SensorData.t) : string :=
  if gt (num_or (option_map SensorData.eda currentReading) 0) 10
  then "destructive"
  else if num_lt (num_or (option_map SensorData.eda currentReading) 0) 3
       then "secondary" else "default".

Definition edaStatus (currentReading : option SensorData.t) : string :=
  if gt (num_or (option_map SensorData.eda currentReading) 0) 10
  then "High Arousal"
  else if num_lt (num_or (option_map SensorData.eda currentReading) 0) 3
       then "Low Arousal" else "Normal".

Definition temperatureVariant (currentReading : option SensorData.t) : string :=
  if gt (num_or (option_map SensorData.temperature currentReading) 0) 37.5
  then "destructive"
  else if num_lt (num_or (option_map SensorData.temperature currentReading) 0) 36
       then "secondary" else "default".

Definition temperatureStatus (currentReading : option SensorData.t) : string :=
  if gt (num_or (option_map SensorData.temperature currentReading) 0) 37.5
  then "High"
  else if num_lt (num_or (option_map SensorData.temperature currentReading) 0) 36
       then "Low" else "Normal".

(** The cells of the "Session Summary" and "Health Metrics" cards. *)
Definition durationMinutes (sensorData : list SensorData.t) : Z :=
  Qfloor (num_length sensorData * 30 / 60).

(** [(sum / length).toFixed(1)], the sum taken exactly; [None] is the
    text "NaN". *)
Definition avgConfidence (sensorData : list SensorData.t) : option Q :=
  option_map (toFixed 1)
    (num_div
       (fold_left (fun sum d => sum + SensorData.confidence d) sensorData 0)
       (num_length sensorData)).

(** [emotionCounts.stressed || 0]. *)
Definition stressEpisodes (sensorData : list SensorData.t) : Q :=
  num_or (get (emotionCounts sensorData) "stressed") 0.

(** "Prepare chart data": the points of the two real-time charts. *)
Module ChartPoint.
Record t : Type := mk {
  time : string;
  heartRate : Q;
  eda : Q;
  temperature : Q;
  confidence : Q
}.
End ChartPoint.

Section Charts.

(** [new Date(ts).toLocaleTimeString()], which depends on the locale. *)
Variable toLocaleTimeString : Z -> string.

Definition recentData (sensorData : list SensorData.t) : list ChartPoint.t :=
  map (fun data =>
         ChartPoint.mk
           (toLocaleTimeString (SensorData.timestamp data))
           (SensorData.heartRate data)
           (SensorData.eda data)
           (SensorData.temperature data)
           (SensorData.confidence data))
      (slice_last 20 sensorData).

End Charts.

(** The sum of the values of an object of numbers. *)
Definition total (o : object Q) : Q :=
  fold_right (fun e acc => snd e + acc) 0 o.

(** The channel domains hold of a triple of numbers. *)
Definition triple_in_bounds (heartRate eda temperature : Q) : Prop :=
  (50 <= heartRate /\ heartRate <= 120) /\
  (2 <= eda /\ eda <= 15) /\
  (35.5 <= temperature /\ temperature <= 38.5).

(** Two samples one step of the random walk apart: each channel moved
    by at most half its delta plus half a rounding step. *)
Definition one_step (a b : SensorData.t) : Prop :=
  Qabs (SensorData.heartRate b - SensorData.heartRate a) <= 4.05 /\
  Qabs (SensorData.eda b - SensorData.eda a) <= 1.005 /\
  Qabs (SensorData.temperature b - SensorData.temperature a) <= 0.25.

(** A history in which every sample is one step from the one before. *)
Fixpoint smooth (h : list SensorData.t) : Prop :=
  match h with
  | a :: (b :: _) as rest => one_step a b /\ smooth rest
  | _ => True
  end.

(** ** The classifier in double precision *)

Module Binary64.

Local Open Scope float_scope.

(** [a > b] on doubles: false when either is NaN. *)
Definition gt (a b : float) : bool := b <? a.

(** [Math.min(a, b)]: NaN when either is NaN, and [-0] below [+0]. *)
Definition Math_min (a b : float) : float :=
  if PrimFloat.is_nan a then a
  else if PrimFloat.is_nan b then b
  else if a <? b then a
  else if b <? a then b
  else if PrimFloat.get_sign a then a else b.

(** The local array [features] of [classifyEmotion]. *)
Definition features (heartRate eda temperature : float) : list float :=
  [ (heartRate - 70) / 50;
    (eda - 5) / 10;
    (temperature - 36.5) / 2 ].

(** The local object [scores] of [classifyEmotion], every operation
    rounded to the nearest double. *)
Definition scores (heartRate eda temperature : float) : object float :=
  let f := fun i => nth i (features heartRate eda temperature) nan in
  let calmScore := - f 0%nat * 0.5 - f 1%nat * 0.3 + f 2%nat * 0.2 in
  let happyScore := f 0%nat * 0.3 - f 1%nat * 0.2 + f 2%nat * 0.4 in
  let stressedScore := f 0%nat * 0.8 + f 1%nat * 0.6 - f 2%nat * 0.1 in
  let focusedScore := f 0%nat * 0.4 + f 1%nat * 0.1 + f 2%nat * 0.1 in
  let neutralScore := - abs (f 0%nat) - abs (f 1%nat) - abs (f 2%nat) in
  [ ("calm", calmScore);
    ("happy", happyScore);
    ("stressed", stressedScore);
    ("focused", focusedScore);
    ("neutral", neutralScore) ].

(** The reducer [(a, b) => a[1] > b[1] ? a : b]. *)
Definition greater {K} (a b : K * float) : K * float :=
  if gt (snd a) (snd b) then a else b.

Module Classified.
Record t : Type := mk {
  emotion : string;
  confidence : float
}.
End Classified.

Section Simulation.

(** The double returned by the [k]-th call of [Math.random()]. *)
Variable random : nat -> float.

Definition Math_random : M float := fun k => Normal (random k, S k).

Definition classifyEmotion (heartRate eda temperature : float) : M Classified.t :=
  maxEntry <- lift (reduce greater (entries (scores heartRate eda temperature))) ;;
  r <- Math_random ;;
  let confidence := Math_min (94 + r * 6) 100 in
  ret (Classified.mk (fst maxEntry) confidence).

End Simulation.

Local Close Scope float_scope.

(** The real number a double denotes; [None] for NaN and the
    infinities. *)
Definition exact (x : float) : option Q :=
  match Prim2SF x with
  | S754_zero _ => Some 0
  | S754_finite s m e => Some (inject_Z (if s then Z.neg m else Z.pos m) * 2 ^ e)
  | S754_infinity _ => None
  | S754_nan => None
  end.

(** [Number(x.toFixed(digits))] as the decimal it denotes: [toFixed]
    rounds the real number that [x] denotes. *)
Definition toFixed (digits : nat) (x : float) : option Q :=
  option_map (Js.toFixed digits) (exact x).

End Binary64.

(** A key whose lexicographic order is the order of the doubles that
    are not NaN: sign class, then exponent, then mantissa, the last two
    negated for negative numbers.  The two zeros share a key. *)
Definition float_key (x : spec_float) : Z * Z * Z :=
  match x with
  | S754_nan => (0, 0, 0)
  | S754_zero _ => (0, 0, 0)
  | S754_infinity true => (-2, 0, 0)
  | S754_infinity false => (2, 0, 0)
  | S754_finite true m e => (-1, - e, - Z.pos m)
  | S754_finite false m e => (1, e, Z.pos m)
  end%Z.

Definition key_lt (a b : Z * Z * Z) : Prop :=
  let '(a1, a2, a3) := a in
  let '(b1, b2, b3) := b in
  (a1 < b1 \/ (a1 = b1 /\ (a2 < b2 \/ (a2 = b2 /\ a3 < b3))))%Z.

(** ** JSON text *)

Module JSON.

(** The values a flat record holds: numbers and strings. *)
Inductive value : Type :=
| VNum (q : Q)
| VStr (s : string).

Definition code (c : ascii) : N := N_of_ascii c.

Definition dquote : ascii := ascii_of_N 34.
Definition newline : ascii := ascii_of_N 10.
Definition nl : string := String newline "".

Definition is_digit (c : ascii) : bool := ((48 <=? code c) && (code c <=? 57))%N.
Definition digit_value (c : ascii) : N := (code c - 48)%N.
Definition digit_char (v : N) : ascii := ascii_of_N (48 + v).

(** *** Serialisation *)

(** The [w] low decimal digits of [n], most significant first. *)
Fixpoint print_width (w : nat) (n : N) : string :=
  match w with
  | O => ""
  | S w' => String (digit_char ((n / 10 ^ N.of_nat w') mod 10)) (print_width w' n)
  end.

(** The number of decimal digits of [n], 1 for 0. *)
Fixpoint num_digits_fuel (fuel : nat) (n : N) : nat :=
  match fuel with
  | O => 1
  | S f => if (n <? 10)%N then 1%nat else S (num_digits_fuel f (n / 10))
  end.

Definition num_digits (n : N) : nat := num_digits_fuel (N.to_nat (N.size n)) n.

Definition print_N (n : N) : string := print_width (num_digits n) n.

(** [q * 10^d] is an integer. *)
Definition is_integer_at (q : Q) (d : nat) : bool :=
  ((Qnum q * 10 ^ Z.of_nat d) mod Zpos (Qden q) =? 0)%Z.

Fixpoint decimal_places_from (fuel d : nat) (q : Q) : option nat :=
  if is_integer_at q d then Some d
  else match fuel with
       | O => None
       | S f => decimal_places_from f (S d) q
       end.

(** The number of decimals of [q], when [q] is a finite decimal with at
    most 1074 of them, as every double is. *)
Definition decimal_places (q : Q) : option nat := decimal_places_from 1074 0 q.

(** [Number::toString] where it uses plain decimal notation (magnitudes
    from [10^-6] up to [10^21]): sign, integer part, and the decimals
    when there are any.  What is no finite decimal is no finite double,
    and is written [null] as [JSON.stringify] writes [NaN]. *)
Definition Number_toString (q : Q) : string :=
  match decimal_places q with
  | Some d =>
      let z := ((Qnum q * 10 ^ Z.of_nat d) / Zpos (Qden q))%Z in
      let m := Z.abs_N z in
      ((if (z <? 0)%Z then "-" else "")
       ++ print_N (m / 10 ^ N.of_nat d)
       ++ (match d with
           | O => ""
           | S _ => "." ++ print_width d (m mod 10 ^ N.of_nat d)
           end))%string
  | None => "null"
  end.

Definition hex_char (v : N) : ascii :=
  if (v <? 10)%N then ascii_of_N (48 + v) else ascii_of_N (87 + v).

(** [QuoteJSONString] on one character of a string of bytes. *)
Definition escape_char (c : ascii) : string :=
  if Ascii.eqb c dquote then String "\" (String dquote "")
  else if Ascii.eqb c "\" then "\\"
  else if (code c =? 8)%N then "\b"
  else if (code c =? 12)%N then "\f"
  else if (code c =? 10)%N then "\n"
  else if (code c =? 13)%N then "\r"
  else if (code c =? 9)%N then "\t"
  else if (code c <? 32)%N
       then ("\u00" ++ String (hex_char (code c / 16))
                        (String (hex_char (code c mod 16)) ""))%string
       else String c "".

Fixpoint escape (s : string) : string :=
  match s with
  | "" => ""
  | String c s' => (escape_char c ++ escape s')%string
  end.

Definition quote (s : string) : string :=
  String dquote (escape s ++ String dquote "")%string.

Definition value_text (v : value) : string :=
  match v with
  | VNum q => Number_toString q
  | VStr s => quote s
  end.

(** [parts.join(sep)]. *)
Fixpoint join (sep : string) (parts : list string) : string :=
  match parts with
  | [] => ""
  | [x] => x
  | x :: l' => (x ++ sep ++ join sep l')%string
  end.

Definition member_text (m : string * value) : string :=
  (quote (fst m) ++ ": " ++ value_text (snd m))%string.

(** [SerializeJSONObject] for an element of the top-level array, with a
    gap of two spaces: the indentation is four spaces inside the object
    and two before its closing brace. *)
Definition object_text (o : object value) : string :=
  match o with
  | [] => "{}"
  | _ => ("{" ++ nl ++ "    "
          ++ join ("," ++ nl ++ "    ") (map member_text o)
          ++ nl ++ "  " ++ "}")%string
  end.

(** [JSON.stringify(arr, null, 2)] on an array of flat records. *)
Definition stringify (arr : list (object value)) : string :=
  match arr with
  | [] => "[]"
  | _ => ("[" ++ nl ++ "  "
          ++ join ("," ++ nl ++ "  ") (map object_text arr)
          ++ nl ++ "]")%string
  end.

(** *** Parsing *)

Definition is_ws (c : ascii) : bool :=
  ((code c =? 32) || (code c =? 10) || (code c =? 13) || (code c =? 9))%N.

Fixpoint skip_ws (s : string) : string :=
  match s with
  | "" => ""
  | String c s' => if is_ws c then skip_ws s' else s
  end.

(** The longest run of digits at the head of [s], accumulated into [acc]
    and counted into [count]. *)
Fixpoint parse_digits (s : string) (acc : N) (count : nat) : N * nat * string :=
  match s with
  | "" => (acc, count, "")
  | String c s' =>
      if is_digit c then parse_digits s' (acc * 10 + digit_value c)%N (S count)
      else (acc, count, s)
  end.

(** The integer part: [0], or a digit from 1 to 9 and more digits. *)
Definition parse_int (s : string) : option (N * string) :=
  match s with
  | "" => None
  | String c s' =>
      if negb (is_digit c) then None
      else if (code c =? 48)%N then
        match s' with
        | "" => Some (0%N, "")
        | String c' _ => if is_digit c' then None else Some (0%N, s')
        end
      else let '(n, _, rest) := parse_digits s 0 0 in Some (n, rest)
  end.

(** The optional fraction: a point and at least one digit. *)
Definition parse_fraction (s : string) : option (N * nat * string) :=
  match s with
  | "" => Some (0%N, O, "")
  | String c s' =>
      if Ascii.eqb c "." then
        let '(f, count, rest) := parse_digits s' 0 0 in
        match count with
        | O => None
        | S _ => Some (f, count, rest)
        end
      else Some (0%N, O, s)
  end.

(** The optional exponent: [e] or [E], an optional sign and at least one
    digit. *)
Definition parse_exponent (s : string) : option (Z * string) :=
  match s with
  | "" => Some (0%Z, "")
  | String c s' =>
      if Ascii.eqb c "e" || Ascii.eqb c "E" then
        let '(neg, s1) :=
          match s' with
          | "" => (false, "")
          | String c' s'' =>
              if Ascii.eqb c' "-" then (true, s'')
              else if Ascii.eqb c' "+" then (false, s'')
              else (false, s')
          end in
        let '(x, count, rest) := parse_digits s1 0 0 in
        match count with
        | O => None
        | S _ => Some (if neg then (- Z.of_N x)%Z else Z.of_N x, rest)
        end
      else Some (0%Z, s)
  end.

Definition parse_number (s : string) : option (Q * string) :=
  let '(neg, s0) :=
    match s with
    | "" => (false, "")
    | String c s' => if Ascii.eqb c "-" then (true, s') else (false, s)
    end in
  match parse_int s0 with
  | None => None
  | Some (i, s1) =>
  match parse_fraction s1 with
  | None => None
  | Some (f, count, s2) =>
  match parse_exponent s2 with
  | None => None
  | Some (x, s3) =>
      let m := Z.of_N (i * 10 ^ N.of_nat count + f) in
      let q := ((if neg then (- m)%Z else m) # Z.to_pos (10 ^ Z.of_nat count))
               * 10 ^ x in
      Some (Qred q, s3)
  end end end.

Definition hex_value (c : ascii) : option N :=
  if is_digit c then Some (digit_value c)
  else if ((97 <=? code c) && (code c <=? 102))%N then Some (code c - 87)%N
  else if ((65 <=? code c) && (code c <=? 70))%N then Some (code c - 55)%N
  else None.

(** The character an escape letter stands for. *)
Definition unescape (e : ascii) : option ascii :=
  if Ascii.eqb e dquote then Some dquote
  else if Ascii.eqb e "\" then Some "\"%char
  else if Ascii.eqb e "/" then Some "/"%char
  else if Ascii.eqb e "b" then Some (ascii_of_N 8)
  else if Ascii.eqb e "f" then Some (ascii_of_N 12)
  else if Ascii.eqb e "n" then Some (ascii_of_N 10)
  else if Ascii.eqb e "r" then Some (ascii_of_N 13)
  else if Ascii.eqb e "t" then Some (ascii_of_N 9)
  else None.

Definition prepend (c : ascii) (r : option (string * string)) : option (string * string) :=
  match r with
  | Some (s, rest) => Some (String c s, rest)
  | None => None
  end.

(** The characters of a string up to its closing quote.  A [\u] escape
    is read when it denotes a single byte. *)
Fixpoint parse_chars (s : string) : option (string * string) :=
  match s with
  | "" => None
  | String c s' =>
      if Ascii.eqb c dquote then Some ("", s')
      else if Ascii.eqb c "\" then
        match s' with
        | "" => None
        | String e s'' =>
            if Ascii.eqb e "u" then
              match s'' with
              | String h1 (String h2 (String h3 (String h4 s3))) =>
                  match hex_value h1, hex_value h2, hex_value h3, hex_value h4 with
                  | Some a, Some b, Some c', Some d =>
                      let n := (((a * 16 + b) * 16 + c') * 16 + d)%N in
                      if (n <? 256)%N then prepend (ascii_of_N n) (parse_chars s3)
                      else None
                  | _, _, _, _ => None
                  end
              | _ => None
              end
            else match unescape e with
                 | Some c' => prepend c' (parse_chars s'')
                 | None => None
                 end
        end
      else if (code c <? 32)%N then None
      else prepend c (parse_chars s')
  end.

Definition parse_string (s : string) : option (string * string) :=
  match s with
  | "" => None
  | String c s' => if Ascii.eqb c dquote then parse_chars s' else None
  end.

(** A member's value: a string or a number. *)
Definition parse_value (s : string) : option (value * string) :=
  match s with
  | "" => None
  | String c _ =>
      if Ascii.eqb c dquote then
        match parse_string s with
        | Some (x, rest) => Some (VStr x, rest)
        | None => None
        end
      else
        match parse_number s with
        | Some (q, rest) => Some (VNum q, rest)
        | None => None
        end
  end.

(** The members of an object from its first key on, added to [o] in the
    order read: a repeated key keeps its place and takes the later
    value. *)
Fixpoint parse_members (fuel : nat) (s : string) (o : object value)
  : option (object value * string) :=
  match fuel with
  | O => None
  | S f =>
      match parse_string s with
      | None => None
      | Some (key, s1) =>
          match skip_ws s1 with
          | "" => None
          | String c s2 =>
              if negb (Ascii.eqb c ":") then None
              else
                match parse_value (skip_ws s2) with
                | None => None
                | Some (v, s3) =>
                    match skip_ws s3 with
                    | "" => None
                    | String c' s4 =>
                        if Ascii.eqb c' "," then
                          parse_members f (skip_ws s4) (set o key v)
                        else if Ascii.eqb c' "}" then Some (set o key v, s4)
                        else None
                    end
                end
          end
      end
  end.

Definition parse_object (fuel : nat) (s : string) : option (object value * string) :=
  match s with
  | "" => None
  | String c s1 =>
      if negb (Ascii.eqb c "{") then None
      else
        match skip_ws s1 with
        | "" => None
        | String c' s2 as s1' =>
            if Ascii.eqb c' "}" then Some ([], s2)
            else parse_members fuel s1' []
        end
  end.

(** The elements of an array from its first element on; [depth] is the
    fuel for the members of each element. *)
Fixpoint parse_elements (fuel depth : nat) (s : string)
  : option (list (object value) * string) :=
  match fuel with
  | O => None
  | S f =>
      match parse_object depth s with
      | None => None
      | Some (o, s1) =>
          match skip_ws s1 with
          | "" => None
          | String c s2 =>
              if Ascii.eqb c "," then
                match parse_elements f depth (skip_ws s2) with
                | Some (os, rest) => Some (o :: os, rest)
                | None => None
                end
              else if Ascii.eqb c "]" then Some ([o], s2)
              else None
          end
      end
  end.

Definition parse_array (fuel : nat) (s : string)
  : option (list (object value) * string) :=
  match s with
  | "" => None
  | String c s1 =>
      if negb (Ascii.eqb c "[") then None
      else
        match skip_ws s1 with
        | "" => None
        | String c' s2 as s1' =>
            if Ascii.eqb c' "]" then Some ([], s2)
            else parse_elements fuel fuel s1'
        end
  end.

(** [JSON.parse] on the text of an array of flat records whose values
    are numbers and strings; [None] stands for a SyntaxError and for
    texts outside this fragment.  Every member and every element takes
    at least one character, so the length of the text is fuel enough. *)
Definition parse (text : string) : option (list (object value)) :=
  match parse_array (String.length text) (skip_ws text) with
  | Some (arr, rest) =>
      match skip_ws rest with
      | "" => Some arr
      | String _ _ => None
      end
  | None => None
  end.

(** *** Texts that are read back as written *)

(** A text at which a run of digits ends. *)
Definition ends_digits (s : string) : bool :=
  match s with
  | "" => true
  | String c _ => negb (is_digit c)
  end.

(** A text at which a number ends. *)
Definition ends_number (s : string) : bool :=
  match s with
  | "" => true
  | String c _ =>
      negb (is_digit c || Ascii.eqb c "." || Ascii.eqb c "e" || Ascii.eqb c "E")
  end.

(** A number that [Number_toString] writes in full and [parse_number]
    reads back as it is: a finite decimal in lowest terms. *)
Definition plain_number (q : Q) : Prop :=
  Qred q = q /\ decimal_places q <> None.

(** Strings that [quote] leaves as they are: no quote, no backslash, no
    control character. *)
Definition plain_char (c : ascii) : bool :=
  negb (Ascii.eqb c dquote) && negb (Ascii.eqb c "\") && (32 <=? code c)%N.

Fixpoint plain (s : string) : bool :=
  match s with
  | "" => true
  | String c s' => plain_char c && plain s'
  end.

Definition plain_value (v : value) : Prop :=
  match v with
  | VNum q => plain_number q
  | VStr s => plain s = true
  end.

Definition setm (o : object value) (m : string * value) : object value :=
  set o (fst m) (snd m).

Definition plain_member (m : string * value) : Prop :=
  plain (fst m) = true /\ plain_value (snd m).

(** A record that the text determines: plain keys, all different, and
    plain values. *)
Definition plain_object (o : object value) : Prop :=
  Forall plain_member o /\ NoDup (map fst o).

(** What follows the first member in the text of an object: the other
    members, each after a comma and the indentation, and the closing
    brace on a line of its own. *)
Fixpoint members_tail (ms : list (string * value)) (rest : string) : string :=
  match ms with
  | [] => String newline ("  }" ++ rest)
  | m :: ms' =>
      String "," (String newline ("    " ++ member_text m ++ members_tail ms' rest))
  end.

Fixpoint elements_tail (os : list (object value)) (rest : string) : string :=
  match os with
  | [] => String newline ("]" ++ rest)
  | o :: os' =>
      String "," (String newline ("  " ++ object_text o ++ elements_tail os' rest))
  end.

End JSON.

(** ** Export *)

(** The own properties of a reading, in the order in which the object
    literal returned by [generateSensorData] creates them. *)
Definition properties (s : SensorData.t) : object JSON.value :=
  [ ("timestamp", JSON.VNum (inject_Z (SensorData.timestamp s)));
    ("heartRate", JSON.VNum (SensorData.heartRate s));
    ("eda", JSON.VNum (SensorData.eda s));
    ("temperature", JSON.VNum (SensorData.temperature s));
    ("emotion", JSON.VStr (SensorData.emotion s));
    ("confidence", JSON.VNum (SensorData.confidence s)) ].

(** [exportData]: the text [dataStr] that is downloaded,
    [JSON.stringify(sensorData, null, 2)]. *)
Definition exportData (sensorData : list SensorData.t) : string :=
  JSON.stringify (map properties sensorData).

(** Reading a parsed array back as [SensorData[]]: every element must
    hold the six fields with values of the declared types, the timestamp
    an integer. *)
Definition as_number (v : option JSON.value) : option Q :=
  match v with
  | Some (JSON.VNum q) => Some q
  | _ => None
  end.

Definition as_string (v : option JSON.value) : option string :=
  match v with
  | Some (JSON.VStr s) => Some s
  | _ => None
  end.

Definition as_integer (v : option JSON.value) : option Z :=
  match as_number v with
  | Some q => if (Qden q =? 1)%positive then Some (Qnum q) else None
  | None => None
  end.

Definition toSensorData (o : object JSON.value) : option SensorData.t :=
  match as_integer (get o "timestamp"), as_number (get o "heartRate"),
        as_number (get o "eda"), as_number (get o "temperature"),
        as_string (get o "emotion"), as_number (get o "confidence") with
  | Some ts, Some hr, Some ed, Some te, Some em, Some co =>
      Some (SensorData.mk ts hr ed te em co)
  | _, _, _, _, _, _ => None
  end.

Fixpoint all_some {A} (l : list (option A)) : option (list A) :=
  match l with
  | [] => Some []
  | Some a :: l' => option_map (cons a) (all_some l')
  | None :: _ => None
  end.

(** Parsing an exported text and reading the result as a history. *)
Definition importData (text : string) : option (list SensorData.t) :=
  match JSON.parse text with
  | Some arr => all_some (map toSensorData arr)
  | None => None
  end.

(** * Properties *)

(** ** Rounding *)

Lemma toFixed_comp (d : nat) (x y : Q) : x == y -> toFixed d x = toFixed d y.
Proof.
  intros E. unfold toFixed.
  assert (Ef : Qfloor (Qabs x * inject_Z (10 ^ Z.of_nat d) + 0.5)
             = Qfloor (Qabs y * inject_Z (10 ^ Z.of_nat d) + 0.5)).
  { apply Qfloor_comp. rewrite E. reflexivity. }
  assert (Eb : Qle_bool 0 x = Qle_bool 0 y) by (rewrite E; reflexivity).
  rewrite Ef, Eb. reflexivity.
Qed.

Lemma pow10_pos (d : nat) : (0 < 10 ^ Z.of_nat d)%Z.
Proof. apply Z.pow_pos_nonneg; lia. Qed.

Lemma Qmake_pow10 (n : Z) (d : nat) :
  n # Z.to_pos (10 ^ Z.of_nat d) == inject_Z n / inject_Z (10 ^ Z.of_nat d).
Proof.
  pose proof (pow10_pos d) as Hp.
  rewrite (Qmake_Qdiv n (Z.to_pos (10 ^ Z.of_nat d))).
  rewrite Z2Pos.id by exact Hp. reflexivity.
Qed.

(** On a non-negative number [toFixed] is the floor of the scaled value
    plus one half, over the scale. *)
Lemma toFixed_nonneg (d : nat) (x : Q) :
  0 <= x ->
  toFixed d x ==
  Qfloor (x * inject_Z (10 ^ Z.of_nat d) + 0.5) # Z.to_pos (10 ^ Z.of_nat d).
Proof.
  intros Hx. unfold toFixed.
  rewrite Qred_correct.
  assert (Hb : Qle_bool 0 x = true) by (apply Qle_bool_iff; exact Hx).
  rewrite Hb.
  assert (Ef : Qfloor (Qabs x * inject_Z (10 ^ Z.of_nat d) + 0.5)
             = Qfloor (x * inject_Z (10 ^ Z.of_nat d) + 0.5)).
  { apply Qfloor_comp. rewrite (Qabs_pos x Hx). reflexivity. }
  rewrite Ef. reflexivity.
Qed.

(** Rounding keeps a value between two bounds that are themselves
    multiples of the rounding step. *)
Lemma toFixed_between (d : nat) (a b : Z) (x : Q) :
  (0 <= a)%Z ->
  a # Z.to_pos (10 ^ Z.of_nat d) <= x ->
  x <= b # Z.to_pos (10 ^ Z.of_nat d) ->
  a # Z.to_pos (10 ^ Z.of_nat d) <= toFixed d x /\
  toFixed d x <= b # Z.to_pos (10 ^ Z.of_nat d).
Proof.
  intros Ha Hlo Hhi.
  pose proof (pow10_pos d) as Hp.
  assert (Hx : 0 <= x).
  { eapply Qle_trans; [| exact Hlo]. unfold Qle; simpl. lia. }
  rewrite (toFixed_nonneg d x Hx).
  rewrite (Qmake_pow10 a d) in Hlo. rewrite (Qmake_pow10 b d) in Hhi.
  set (p := (10 ^ Z.of_nat d)%Z) in *.
  assert (HpQ : 0 < inject_Z p).
  { change 0 with (inject_Z 0). rewrite <- Zlt_Qlt. exact Hp. }
  assert (Hnz : ~ inject_Z p == 0).
  { intros E. rewrite E in HpQ. exact (Qlt_irrefl 0 HpQ). }
  assert (Hlo' : inject_Z a <= x * inject_Z p).
  { apply (proj2 (Qmult_le_r _ _ (inject_Z p) HpQ)) in Hlo.
    setoid_replace (inject_Z a / inject_Z p * inject_Z p) with (inject_Z a)
      in Hlo by (field; exact Hnz).
    exact Hlo. }
  assert (Hhi' : x * inject_Z p <= inject_Z b).
  { apply (proj2 (Qmult_le_r _ _ (inject_Z p) HpQ)) in Hhi.
    setoid_replace (inject_Z b / inject_Z p * inject_Z p) with (inject_Z b)
      in Hhi by (field; exact Hnz).
    exact Hhi. }
  set (n := Qfloor (x * inject_Z p + 0.5)).
  assert (Hn1 : (a <= n)%Z).
  { rewrite <- (Qfloor_Z a). apply Qfloor_resp_le.
    apply Qle_trans with (1 := Hlo').
    rewrite <- (Qplus_0_r (x * inject_Z p)) at 1.
    apply Qplus_le_r. discriminate. }
  assert (Hn2 : (n <= b)%Z).
  { pose proof (Qfloor_le (x * inject_Z p + 0.5)) as Hf. fold n in Hf.
    assert (Hlt : inject_Z n < inject_Z (b + 1)).
    { rewrite inject_Z_plus.
      apply Qle_lt_trans with (1 := Hf).
      apply Qle_lt_trans with (inject_Z b + 0.5).
      - apply Qplus_le_l. exact Hhi'.
      - apply Qplus_lt_r. reflexivity. }
    rewrite <- Zlt_Qlt in Hlt. lia. }
  split; unfold Qle; simpl; apply Z.mul_le_mono_nonneg_r; lia.
Qed.

(** The rounded value is a multiple of the step and lies within half a
    step of the argument. *)
Lemma toFixed_nearest (d : nat) (x : Q) :
  0 <= x ->
  exists n : Z,
    toFixed d x == n # Z.to_pos (10 ^ Z.of_nat d) /\
    inject_Z n <= x * inject_Z (10 ^ Z.of_nat d) + 0.5 /\
    x * inject_Z (10 ^ Z.of_nat d) + 0.5 < inject_Z n + 1.
Proof.
  intros Hx.
  exists (Qfloor (x * inject_Z (10 ^ Z.of_nat d) + 0.5)).
  split; [apply toFixed_nonneg; exact Hx |].
  split; [apply Qfloor_le |].
  pose proof (Qlt_floor (x * inject_Z (10 ^ Z.of_nat d) + 0.5)) as H.
  rewrite inject_Z_plus in H. exact H.
Qed.

(** ** The reducer that keeps the greater entry *)

Lemma gt_true (a b : Q) : gt a b = true <-> b < a.
Proof.
  unfold gt. rewrite negb_true_iff.
  destruct (Qle_bool a b) eqn:E.
  - apply Qle_bool_iff in E. split; [discriminate | intros H; lra].
  - split; [intros _ | reflexivity].
    apply Qnot_le_lt. intros H. apply Qle_bool_iff in H. congruence.
Qed.

Lemma gt_false (a b : Q) : gt a b = false <-> a <= b.
Proof.
  unfold gt. rewrite negb_false_iff. apply Qle_bool_iff.
Qed.

Lemma greater_cases {K} (a b : K * Q) :
  (greater a b = a /\ snd b < snd a) \/ (greater a b = b /\ snd a <= snd b).
Proof.
  unfold greater. destruct (gt (snd a) (snd b)) eqn:E.
  - left. split; [reflexivity | apply gt_true; exact E].
  - right. split; [reflexivity | apply gt_false; exact E].
Qed.

(** Folding [greater] over an array returns its last entry of maximal
    value: nothing is above it, and everything after it is strictly
    below. *)
Lemma fold_greater_last_max {K} (xs : list (K * Q)) :
  forall x : K * Q,
  exists pre post,
    x :: xs = pre ++ fold_left greater xs x :: post /\
    Forall (fun e => snd e <= snd (fold_left greater xs x)) pre /\
    Forall (fun e => snd e < snd (fold_left greater xs x)) post.
Proof.
  induction xs as [| y ys IH]; intros x.
  - exists [], []. simpl. repeat split; constructor.
  - simpl. destruct (IH (greater x y)) as (pre & post & E & Hpre & Hpost).
    set (r := fold_left greater ys (greater x y)) in *.
    destruct pre as [| g pre'].
    + simpl in E. injection E as Eg Eys. subst post.
      destruct (greater_cases x y) as [[Hg Hlt] | [Hg Hle]].
      * exists [], (y :: ys). simpl.
        assert (Er : r = x) by congruence.
        split; [rewrite Er; reflexivity |].
        split; [constructor |].
        constructor; [rewrite Er; exact Hlt | exact Hpost].
      * exists [x], ys. simpl.
        assert (Er : r = y) by congruence.
        split; [rewrite Er; reflexivity |].
        split; [| exact Hpost].
        constructor; [rewrite Er; exact Hle | constructor].
    + simpl in E. injection E as Eg Eys.
      apply Forall_cons_iff in Hpre. destruct Hpre as [Hg Hpre'].
      exists (x :: y :: pre'), post. simpl.
      split; [rewrite Eys; reflexivity |].
      split; [| exact Hpost].
      rewrite <- Eg in Hg.
      destruct (greater_cases x y) as [[Hgx Hlt] | [Hgy Hle]].
      * rewrite Hgx in Hg.
        constructor; [exact Hg |].
        constructor; [lra | exact Hpre'].
      * rewrite Hgy in Hg.
        constructor; [lra |].
        constructor; [exact Hg | exact Hpre'].
Qed.

Lemma reduce_greater_last_max {K} (arr : list (K * Q)) :
  arr <> [] ->
  exists r pre post,
    reduce greater arr = Normal r /\
    arr = pre ++ r :: post /\
    Forall (fun e => snd e <= snd r) pre /\
    Forall (fun e => snd e < snd r) post.
Proof.
  destruct arr as [| x xs]; [congruence | intros _].
  destruct (fold_greater_last_max xs x) as (pre & post & E & Hpre & Hpost).
  exists (fold_left greater xs x), pre, post. simpl. auto.
Qed.

(** ** Running the classifier and the simulator *)

Section Runs.

Variable random : nat -> Q.

Lemma scores_keys (heartRate eda temperature : Q) :
  map fst (scores heartRate eda temperature) = labels.
Proof. reflexivity. Qed.

Lemma scores_cons (heartRate eda temperature : Q) :
  exists x xs, scores heartRate eda temperature = x :: xs.
Proof. unfold scores. cbv zeta. do 2 eexists. reflexivity. Qed.

(** The classifier always returns, after exactly one draw, with the key
    of the entry [reduce] selects and the clamped confidence. *)
Lemma classifyEmotion_run (heartRate eda temperature : Q) (k : nat) :
  exists maxEntry,
    reduce greater (entries (scores heartRate eda temperature)) = Normal maxEntry /\
    classifyEmotion random heartRate eda temperature k =
    Normal (Classified.mk (fst maxEntry) (Qmin (94 + random k * 6) 100), S k).
Proof.
  destruct (scores_cons heartRate eda temperature) as (x & xs & E).
  exists (fold_left greater xs x).
  unfold classifyEmotion, entries. rewrite E.
  split; reflexivity.
Qed.

End Runs.

(** ** Classification *)

(** C2, the claim as written fails: at the baseline (72, 6, 36.8) the
    normalised features are 0.04, 0.1 and 0.15, not 0, and the label is
    stressed; at (70, 5, 36.5) all five scores are 0, calm is the first
    label of the claimed priority order, and the label is neutral. *)
Lemma classifyEmotion_baseline_and_tie_not_calm :
  (Forall2 Qeq (features 72 6 36.8) [0.04; 0.1; 0.15] /\
   classifyEmotion midpoint 72 6 36.8 0%nat
     = Normal (Classified.mk "stressed" 97.0, 1%nat) /\
   "stressed" <> "calm") /\
  (Forall (fun e => snd e == 0) (scores 70 5 36.5) /\
   classifyEmotion midpoint 70 5 36.5 0%nat
     = Normal (Classified.mk "neutral" 97.0, 1%nat) /\
   "neutral" <> "calm").
Proof.
  split; (split; [| split]).
  - repeat constructor.
  - vm_compute. reflexivity.
  - discriminate.
  - repeat constructor.
  - vm_compute. reflexivity.
  - discriminate.
Qed.

(** ** The classifier in double precision *)

Lemma SFltb_key (x y : spec_float) :
  x <> S754_nan -> y <> S754_nan ->
  (SFltb x y = true <-> key_lt (float_key x) (float_key y)).
Proof.
  intros Hx Hy. unfold SFltb.
  destruct x as [sx | sx | | sx mx ex], y as [sy | sy | | sy my ey];
    try (exfalso; apply Hx; reflexivity); try (exfalso; apply Hy; reflexivity);
    try destruct sx; try destruct sy; cbn [SFcompare float_key key_lt];
    try (split; [discriminate | lia]);
    try (split; [intros _; lia | reflexivity]).
  - change (PosDef.Pos.compare_cont Eq mx my) with (Pos.compare mx my).
    destruct (Z.compare_spec ex ey) as [E | E | E]; cbn.
    + destruct (Pos.compare_spec mx my) as [F | F | F]; cbn; split;
        try discriminate; try lia; try reflexivity.
    + split; [discriminate | lia].
    + split; [intros _; lia | reflexivity].
  - change (PosDef.Pos.compare_cont Eq mx my) with (Pos.compare mx my).
    destruct (Z.compare_spec ex ey) as [E | E | E]; cbn.
    + destruct (Pos.compare_spec mx my) as [F | F | F]; cbn; split;
        try discriminate; try lia; try reflexivity.
    + split; [intros _; lia | reflexivity].
    + split; [discriminate | lia].
Qed.

Lemma is_nan_Prim2SF (x : float) :
  PrimFloat.is_nan x = false -> Prim2SF x <> S754_nan.
Proof.
  unfold PrimFloat.is_nan. rewrite eqb_spec. intros H E.
  rewrite E in H. discriminate.
Qed.

Lemma ltb_key (x y : float) :
  PrimFloat.is_nan x = false -> PrimFloat.is_nan y = false ->
  ((x <? y)%float = true
   <-> key_lt (float_key (Prim2SF x)) (float_key (Prim2SF y))).
Proof.
  intros Hx Hy. rewrite ltb_spec.
  apply SFltb_key; now apply is_nan_Prim2SF.
Qed.

Lemma ltb_false_key (x y : float) :
  PrimFloat.is_nan x = false -> PrimFloat.is_nan y = false ->
  ((x <? y)%float = false
   <-> ~ key_lt (float_key (Prim2SF x)) (float_key (Prim2SF y))).
Proof.
  intros Hx Hy. rewrite <- (ltb_key x y Hx Hy).
  destruct (x <? y)%float; split; congruence.
Qed.

(** Among doubles that are not NaN, "not below" is transitive. *)
Lemma ltb_false_trans (x y z : float) :
  PrimFloat.is_nan x = false -> PrimFloat.is_nan y = false ->
  PrimFloat.is_nan z = false ->
  (x <? y)%float = false -> (y <? z)%float = false -> (x <? z)%float = false.
Proof.
  intros Hx Hy Hz. rewrite !ltb_false_key by assumption.
  destruct (float_key (Prim2SF x)) as [[x1 x2] x3],
    (float_key (Prim2SF y)) as [[y1 y2] y3],
    (float_key (Prim2SF z)) as [[z1 z2] z3].
  unfold key_lt. lia.
Qed.

Lemma ltb_trans (x y z : float) :
  PrimFloat.is_nan x = false -> PrimFloat.is_nan y = false ->
  PrimFloat.is_nan z = false ->
  (x <? y)%float = true -> (y <? z)%float = true -> (x <? z)%float = true.
Proof.
  intros Hx Hy Hz. rewrite !ltb_key by assumption.
  destruct (float_key (Prim2SF x)) as [[x1 x2] x3],
    (float_key (Prim2SF y)) as [[y1 y2] y3],
    (float_key (Prim2SF z)) as [[z1 z2] z3].
  unfold key_lt. lia.
Qed.

(** ** The reducer on doubles *)

(** Folding [greater] over entries none of which is NaN returns an entry
    that no earlier entry exceeds and that exceeds every later entry. *)
Lemma fold_greater_binary64 {K} (xs : list (K * float)) :
  forall x : K * float,
    Forall (fun e => PrimFloat.is_nan (snd e) = false) (x :: xs) ->
    exists pre post,
      x :: xs = pre ++ fold_left Binary64.greater xs x :: post /\
      Forall (fun e => (snd (fold_left Binary64.greater xs x) <? snd e)%float
                       = false) pre /\
      Forall (fun e => (snd e <? snd (fold_left Binary64.greater xs x))%float
                       = true) post.
Proof.
  induction xs as [| y xs IH] using rev_ind; intros x Hall.
  - exists [], []. repeat split; constructor.
  - rewrite app_comm_cons in Hall. apply Forall_app in Hall as [Hall Hy].
    apply Forall_inv in Hy.
    destruct (IH x Hall) as (pre & post & E & Hpre & Hpost).
    rewrite fold_left_app. cbn [fold_left].
    set (r := fold_left Binary64.greater xs x) in *.
    assert (Hr : PrimFloat.is_nan (snd r) = false).
    { rewrite E in Hall. apply Forall_app in Hall as [_ Hall].
      now apply Forall_inv in Hall. }
    assert (Hnan : Forall (fun e => PrimFloat.is_nan (snd e) = false) pre
                   /\ Forall (fun e => PrimFloat.is_nan (snd e) = false) post).
    { rewrite E in Hall. apply Forall_app in Hall as [Hp Hall].
      split; [exact Hp | now apply Forall_inv_tail in Hall]. }
    destruct Hnan as [Hnpre Hnpost].
    assert (Egr : Binary64.greater r y
                  = if (snd y <? snd r)%float then r else y) by reflexivity.
    rewrite Egr. clear Egr.
    destruct (snd y <? snd r)%float eqn:Hlt.
    + exists pre, (post ++ [y]). split; [| split].
      * rewrite app_comm_cons, E, <- app_assoc. reflexivity.
      * exact Hpre.
      * apply Forall_app. split; [exact Hpost |].
        constructor; [exact Hlt | constructor].
    + exists (pre ++ r :: post), []. split; [| split].
      * rewrite app_comm_cons, E, <- app_assoc. reflexivity.
      * apply Forall_app. split; [| constructor].
        -- rewrite Forall_forall in *. intros e He.
           apply (ltb_false_trans (snd y) (snd r) (snd e));
             auto.
        -- exact Hlt.
        -- rewrite Forall_forall in *. intros e He.
           destruct (snd y <? snd e)%float eqn:Hye; [| reflexivity].
           rewrite <- Hlt. symmetry.
           apply (ltb_trans (snd y) (snd e) (snd r)); auto.
      * constructor.
Qed.

Lemma scores_keys_binary64 (heartRate eda temperature : float) :
  map fst (Binary64.scores heartRate eda temperature) = labels.
Proof. reflexivity. Qed.

Lemma classifyEmotion_binary64_run (random : nat -> float) (k : nat)
      (heartRate eda temperature : float) (maxEntry : string * float) :
  reduce Binary64.greater (entries (Binary64.scores heartRate eda temperature))
    = Normal maxEntry ->
  Binary64.classifyEmotion random heartRate eda temperature k
    = Normal (Binary64.Classified.mk (fst maxEntry)
                (Binary64.Math_min (94 + random k * 6) 100)%float, S k).
Proof.
  intros H. unfold Binary64.classifyEmotion, bind, lift. rewrite H. reflexivity.
Qed.

(** C2 (as amended): on the scores as the code computes them, in double
    precision, the selected label is an arg-max of the five scores and a
    tie goes to the label written LAST in the order calm, happy,
    stressed, focused, neutral: whenever none of the five scores is NaN,
    no entry before the selected one scores above it and every entry
    after it scores strictly below.  At (72, 6, 36.8) the label is
    stressed; at the centre (70, 5, 36.5) of the normalisation, where the
    five scores are zeros, it is neutral. *)
Theorem classifyEmotion_last_maximum :
  forall (random : nat -> float) (k : nat),
    (forall heartRate eda temperature : float,
       Forall (fun e => PrimFloat.is_nan (snd e) = false)
         (Binary64.scores heartRate eda temperature) ->
       exists c score pre post,
         Binary64.classifyEmotion random heartRate eda temperature k
           = Normal (c, S k) /\
         Binary64.scores heartRate eda temperature
           = pre ++ (Binary64.Classified.emotion c, score) :: post /\
         map fst (Binary64.scores heartRate eda temperature) = labels /\
         Forall (fun e => (score <? snd e)%float = false) pre /\
         Forall (fun e => (snd e <? score)%float = true) post) /\
    (exists c,
       Binary64.classifyEmotion random 72 6 36.8 k = Normal (c, S k) /\
       Binary64.Classified.emotion c = "stressed") /\
    (exists c,
       Binary64.classifyEmotion random 70 5 36.5 k = Normal (c, S k) /\
       Binary64.Classified.emotion c = "neutral").
Proof.
  intros random k. split; [| split].
  - intros heartRate eda temperature Hnan.
    remember (Binary64.scores heartRate eda temperature) as o eqn:Eo.
    assert (Hkeys : map fst o = labels) by (subst o; reflexivity).
    destruct o as [| x xs]; [discriminate |].
    destruct (fold_greater_binary64 xs x Hnan) as (pre & post & E & Hpre & Hpost).
    set (r := fold_left Binary64.greater xs x) in *.
    exists (Binary64.Classified.mk (fst r)
              (Binary64.Math_min (94 + random k * 6) 100)%float),
      (snd r), pre, post.
    split; [| split; [| split; [| split]]].
    + apply classifyEmotion_binary64_run. rewrite <- Eo. reflexivity.
    + cbn [Binary64.Classified.emotion]. rewrite <- surjective_pairing. exact E.
    + exact Hkeys.
    + exact Hpre.
    + exact Hpost.
  - eexists. split.
    + apply classifyEmotion_binary64_run. vm_compute. reflexivity.
    + reflexivity.
  - eexists. split.
    + apply classifyEmotion_binary64_run. vm_compute. reflexivity.
    + reflexivity.
Qed.

Lemma classifyEmotion_last_maximum_witness :
  exists c score pre post,
    Binary64.classifyEmotion (fun _ => 0.5%float) 55 11 37.5 0%nat
      = Normal (c, 1%nat) /\
    Binary64.scores 55 11 37.5
      = pre ++ (Binary64.Classified.emotion c, score) :: post /\
    map fst (Binary64.scores 55 11 37.5) = labels /\
    Forall (fun e => (score <? snd e)%float = false) pre /\
    Forall (fun e => (snd e <? score)%float = true) post.
Proof.
  apply (proj1 (classifyEmotion_last_maximum (fun _ => 0.5%float) 0%nat)
           55 11 37.5)%float.
  repeat constructor.
Defined.

(** ** The label and the draw *)

(** C8: for a fixed triple the label does not depend on the source of
    randomness nor on how many draws were made before: two runs of the
    classifier both return, with the same label. *)
Theorem classifyEmotion_label_independent_of_draw :
  forall (random random' : nat -> Q) (k k' : nat)
         (heartRate eda temperature : Q),
  exists c c',
    classifyEmotion random heartRate eda temperature k = Normal (c, S k) /\
    classifyEmotion random' heartRate eda temperature k' = Normal (c', S k') /\
    Classified.emotion c = Classified.emotion c'.
Proof.
  intros random random' k k' heartRate eda temperature.
  destruct (classifyEmotion_run random heartRate eda temperature k)
    as (e1 & Hr1 & Hrun1).
  destruct (classifyEmotion_run random' heartRate eda temperature k')
    as (e2 & Hr2 & Hrun2).
  do 2 eexists. split; [exact Hrun1 |]. split; [exact Hrun2 |].
  simpl. congruence.
Qed.

(** The label of the classifier is a key of its [scores] object, and its
    confidence is the clamped draw. *)
Lemma classifyEmotion_label (random : nat -> Q) (heartRate eda temperature : Q)
  (k : nat) :
  exists c,
    classifyEmotion random heartRate eda temperature k = Normal (c, S k) /\
    In (Classified.emotion c) labels /\
    Classified.confidence c = Qmin (94 + random k * 6) 100.
Proof.
  destruct (classifyEmotion_run random heartRate eda temperature k)
    as (maxEntry & Hred & Hrun).
  destruct (@reduce_greater_last_max string
              (entries (scores heartRate eda temperature)))
    as (r & pre & post & Hr & Harr & _ & _).
  { destruct (scores_cons heartRate eda temperature) as (x & xs & E).
    unfold entries. rewrite E. discriminate. }
  assert (Er : r = maxEntry) by congruence. subst r.
  eexists. split; [exact Hrun |]. split; [| reflexivity].
  change (In (fst maxEntry) labels).
  rewrite <- (scores_keys heartRate eda temperature).
  unfold entries in Harr. rewrite Harr, map_app.
  apply in_or_app. right. left. reflexivity.
Qed.

(** ** Generation *)

Lemma clamp_between (lo hi v : Q) :
  lo <= hi -> lo <= Qmax lo (Qmin hi v) /\ Qmax lo (Qmin hi v) <= hi.
Proof.
  intros H. split.
  - apply Q.le_max_l.
  - apply Q.max_lub; [exact H | apply Q.le_min_l].
Qed.

(** One call of the simulator: it always returns, after four draws; the
    three channels are clamped before they are classified, and rounded
    only when the record is built. *)
Lemma generateSensorData_run (random : nat -> Q)
  (prevData : option SensorData.t) (now : Z) (k : nat) :
  exists heartRate eda temperature c,
    heartRate =
      Qmax 50 (Qmin 120
        (num_or (option_map SensorData.heartRate prevData) 72
         + (random k - 0.5) * 8)) /\
    eda =
      Qmax 2 (Qmin 15
        (num_or (option_map SensorData.eda prevData) 6
         + (random (S k) - 0.5) * 2)) /\
    temperature =
      Qmax 35.5 (Qmin 38.5
        (num_or (option_map SensorData.temperature prevData) 36.8
         + (random (S (S k)) - 0.5) * 0.4)) /\
    classifyEmotion random heartRate eda temperature (S (S (S k)))
      = Normal (c, S (S (S (S k)))) /\
    In (Classified.emotion c) labels /\
    Classified.confidence c = Qmin (94 + random (S (S (S k))) * 6) 100 /\
    generateSensorData random prevData now k =
      Normal (SensorData.mk now
                (toFixed 1 heartRate) (toFixed 2 eda) (toFixed 1 temperature)
                (Classified.emotion c)
                (toFixed 1 (Classified.confidence c)),
              S (S (S (S k)))).
Proof.
  do 3 eexists.
  edestruct (classifyEmotion_label random) as (c & Hrun & Hin & Hconf).
  exists c.
  split; [reflexivity |]. split; [reflexivity |]. split; [reflexivity |].
  split; [exact Hrun |]. split; [exact Hin |]. split; [exact Hconf |].
  cbv beta iota zeta delta [generateSensorData bind Math_random ret].
  rewrite Hrun. reflexivity.
Qed.

(** C3: without a previous sample and with the three channel draws at
    the midpoint 0.5 (zero perturbation), the simulator returns the
    baseline: heartRate 72, eda 6, temperature 36.8. *)
Theorem generateSensorData_seed_baseline :
  forall (random : nat -> Q) (now : Z) (k : nat),
    random k == 0.5 ->
    random (S k) == 0.5 ->
    random (S (S k)) == 0.5 ->
    exists s,
      generateSensorData random None now k = Normal (s, S (S (S (S k)))) /\
      SensorData.heartRate s == 72 /\
      SensorData.eda s == 6 /\
      SensorData.temperature s == 36.8.
Proof.
  intros random now k H1 H2 H3.
  destruct (generateSensorData_run random None now k)
    as (hr & ed & te & c & Ehr & Eed & Ete & _ & _ & _ & Hrun).
  eexists. split; [exact Hrun |].
  cbn [SensorData.heartRate SensorData.eda SensorData.temperature].
  simpl in Ehr, Eed, Ete.
  assert (Hhr : hr == 72) by (rewrite Ehr, H1; reflexivity).
  assert (Hed : ed == 6) by (rewrite Eed, H2; reflexivity).
  assert (Hte : te == 36.8) by (rewrite Ete, H3; reflexivity).
  rewrite (toFixed_comp 1 hr 72 Hhr), (toFixed_comp 2 ed 6 Hed),
    (toFixed_comp 1 te 36.8 Hte).
  repeat split; reflexivity.
Qed.

Lemma generateSensorData_seed_baseline_witness :
  exists s,
    generateSensorData midpoint None 0%Z 0%nat = Normal (s, 4%nat) /\
    SensorData.heartRate s == 72 /\
    SensorData.eda s == 6 /\
    SensorData.temperature s == 36.8.
Proof.
  apply (generateSensorData_seed_baseline midpoint 0%Z 0%nat); reflexivity.
Defined.

(** ** The history *)

Lemma Forall_skipn {A} (P : A -> Prop) (n : nat) (l : list A) :
  Forall P l -> Forall P (skipn n l).
Proof.
  revert l. induction n as [| n IH]; intros l H; [exact H |].
  destruct l as [| x l]; [constructor |].
  simpl. apply IH. inversion H; assumption.
Qed.

Lemma appendReading_Forall (P : SensorData.t -> Prop) prev newReading :
  Forall P prev -> P newReading -> Forall P (appendReading prev newReading).
Proof.
  intros Hprev Hnew. unfold appendReading, slice_last.
  apply Forall_app. split; [apply Forall_skipn; exact Hprev |].
  constructor; [exact Hnew | constructor].
Qed.

Lemma appendReading_length prev newReading :
  List.length (appendReading prev newReading)
  = S (Nat.min (List.length prev) 100).
Proof.
  unfold appendReading, slice_last.
  rewrite length_app, length_skipn. simpl. lia.
Qed.

(** ** Invariants of the pipeline *)

Section Invariant.

Variable random : nat -> Q.

(** A property of samples that every call of the simulator establishes
    and that does not depend on the timestamp. *)
Variable P : SensorData.t -> Prop.

Hypothesis generated :
  forall prevData now k,
  exists s,
    generateSensorData random prevData now k = Normal (s, S (S (S (S k)))) /\
    forall ts, P (set_timestamp s ts).

Lemma generated_now prevData now k :
  exists s,
    generateSensorData random prevData now k = Normal (s, S (S (S (S k)))) /\
    P s.
Proof.
  destruct (generated prevData now k) as (s & Hrun & HP).
  exists s. split; [exact Hrun |].
  specialize (HP (SensorData.timestamp s)).
  destruct s; exact HP.
Qed.

Lemma initLoop_run (n : nat) :
  forall (i now : Z) lastReading initialData k,
    Forall P initialData -> P lastReading ->
    exists data last,
      initLoop random n i now lastReading initialData k
        = Normal ((data, last), (4 * n + k)%nat) /\
      Forall P data /\ P last /\
      List.length data = (List.length initialData + n)%nat.
Proof.
  induction n as [| n IH]; intros i now lastReading initialData k Hd Hl.
  - exists initialData, lastReading. simpl.
    repeat split; try assumption. lia.
  - destruct (generated (Some lastReading) now k) as (s & Hrun & HP).
    set (last' := set_timestamp s (now - (50 - i) * 30000)%Z).
    destruct (IH (i + 1)%Z now last' (initialData ++ [last'])
                (S (S (S (S k)))))
      as (data & last & Hloop & Hdata & Hlast & Hlen).
    { apply Forall_app. split; [exact Hd |].
      constructor; [apply HP | constructor]. }
    { apply HP. }
    exists data, last.
    split.
    + cbn [initLoop]. unfold bind at 1. rewrite Hrun. fold last'.
      rewrite Hloop. f_equal. f_equal. lia.
    + split; [exact Hdata |]. split; [exact Hlast |].
      rewrite Hlen, length_app. simpl. lia.
Qed.

Lemma initialize_run (now : Z) (st : AppState) (k : nat) :
  exists st',
    initialize random now st k = Normal (st', (204 + k)%nat) /\
    isTracking st' = isTracking st /\
    Forall P (sensorData st') /\
    List.length (sensorData st') = 50%nat /\
    exists r, currentReading st' = Some r /\ P r.
Proof.
  destruct (generated_now None now k) as (first & Hrun & Hfirst).
  destruct (initLoop_run 50 0%Z now first [] (S (S (S (S k))))
              (Forall_nil P) Hfirst)
    as (data & last & Hloop & Hdata & Hlast & Hlen).
  eexists. split.
  - replace (204 + k)%nat with (4 * 50 + S (S (S (S k))))%nat by lia.
    unfold initialize. unfold bind at 1. rewrite Hrun.
    unfold bind at 1. rewrite Hloop. reflexivity.
  - cbn [isTracking sensorData currentReading fst snd].
    split; [reflexivity |].
    split; [exact Hdata |]. split; [exact Hlen |].
    exists last. split; [reflexivity | exact Hlast].
Qed.

Lemma tick_run (now : Z) (st : AppState) (k : nat) :
  Forall P (sensorData st) ->
  exists st',
    tick random now st k = Normal (st', S (S (S (S k)))) /\
    Forall P (sensorData st') /\
    exists r, currentReading st' = Some r /\ P r.
Proof.
  intros Hst.
  destruct (generated_now (currentReading st) now k) as (s & Hrun & Hs).
  eexists. split.
  - unfold tick. unfold bind at 1. rewrite Hrun. reflexivity.
  - cbn [sensorData currentReading].
    split; [apply appendReading_Forall; assumption |].
    exists s. split; [reflexivity | exact Hs].
Qed.

Lemma reachable_invariant (st : AppState) (k : nat) :
  reachable random st k ->
  Forall P (sensorData st) /\
  forall r, currentReading st = Some r -> P r.
Proof.
  induction 1 as [now st k Hinit | now st k st' k' Hreach IH _ Htick
                 | st k Hreach IH].
  - destruct (initialize_run now initialState 0%nat)
      as (st' & Hrun & _ & Hdata & _ & r & Hcur & Hr).
    rewrite Hrun in Hinit. injection Hinit as <- _.
    split; [exact Hdata |].
    intros r' Hr'. rewrite Hcur in Hr'. injection Hr' as <-. exact Hr.
  - destruct IH as [Hdata _].
    destruct (tick_run now st k Hdata) as (st2 & Hrun & Hdata2 & r & Hcur & Hr).
    rewrite Hrun in Htick. injection Htick as <- _.
    split; [exact Hdata2 |].
    intros r' Hr'. rewrite Hcur in Hr'. injection Hr' as <-. exact Hr.
  - exact IH.
Qed.

End Invariant.

Lemma generateSensorData_total (random : nat -> Q)
  (prevData : option SensorData.t) (now : Z) (k : nat) :
  exists s,
    generateSensorData random prevData now k = Normal (s, S (S (S (S k)))) /\
    forall ts : Z, (fun _ : SensorData.t => True) (set_timestamp s ts).
Proof.
  destruct (generateSensorData_run random prevData now k)
    as (hr & ed & te & c & _ & _ & _ & _ & _ & _ & Hrun).
  eexists. split; [exact Hrun | intros ts; exact I].
Qed.

Lemma initialize_isTracking (random : nat -> Q) now st k st' k' :
  initialize random now st k = Normal (st', k') ->
  isTracking st' = isTracking st.
Proof.
  intros H.
  destruct (initialize_run random (fun _ => True)
              (generateSensorData_total random) now st k)
    as (st1 & Hrun & Htr & _).
  rewrite Hrun in H. injection H as <- _. exact Htr.
Qed.

(** ** Channel bounds *)

Lemma toFixed_within (d : nat) (lo hi x : Q) (a b : Z) :
  lo == a # Z.to_pos (10 ^ Z.of_nat d) ->
  hi == b # Z.to_pos (10 ^ Z.of_nat d) ->
  (0 <= a)%Z -> lo <= x -> x <= hi ->
  lo <= toFixed d x /\ toFixed d x <= hi.
Proof.
  intros Ea Eb Ha H1 H2.
  rewrite Ea in H1. rewrite Eb in H2.
  destruct (toFixed_between d a b x Ha H1 H2) as [H3 H4].
  rewrite Ea, Eb. split; assumption.
Qed.

Lemma toFixed_clamp (d : nat) (lo hi v : Q) (a b : Z) :
  lo == a # Z.to_pos (10 ^ Z.of_nat d) ->
  hi == b # Z.to_pos (10 ^ Z.of_nat d) ->
  (0 <= a)%Z -> lo <= hi ->
  lo <= toFixed d (Qmax lo (Qmin hi v)) /\
  toFixed d (Qmax lo (Qmin hi v)) <= hi.
Proof.
  intros Ea Eb Ha Hle.
  destruct (clamp_between lo hi v Hle) as [H1 H2].
  apply (toFixed_within d lo hi _ a b); assumption.
Qed.

Lemma generateSensorData_in_bounds (random : nat -> Q)
  (prevData : option SensorData.t) (now : Z) (k : nat) :
  exists s,
    generateSensorData random prevData now k = Normal (s, S (S (S (S k)))) /\
    forall ts, in_bounds (set_timestamp s ts).
Proof.
  destruct (generateSensorData_run random prevData now k)
    as (hr & ed & te & c & Ehr & Eed & Ete & _ & _ & _ & Hrun).
  eexists. split; [exact Hrun |].
  intros ts. unfold in_bounds, set_timestamp.
  cbn [SensorData.heartRate SensorData.eda SensorData.temperature].
  subst hr ed te.
  split; [| split].
  - apply (toFixed_clamp 1 50 120 _ 500 1200); try reflexivity; [lia | discriminate].
  - apply (toFixed_clamp 2 2 15 _ 200 1500); try reflexivity; [lia | discriminate].
  - apply (toFixed_clamp 1 35.5 38.5 _ 355 385); try reflexivity; [lia | discriminate].
Qed.

(** C5: whatever the draws, in every state the dashboard reaches (the
    bootstrap calls the simulator first without a previous sample and
    then on its own output, and so does every tick) all retained samples
    and the current reading have heartRate in [50, 120], eda in [2, 15]
    and temperature in [35.5, 38.5], rounding included. *)
Theorem pipeline_channels_in_bounds :
  forall (random : nat -> Q) (st : AppState) (k : nat),
    reachable random st k ->
    Forall in_bounds (sensorData st) /\
    forall r, currentReading st = Some r -> in_bounds r.
Proof.
  intros random st k Hreach.
  apply (reachable_invariant random in_bounds
           (generateSensorData_in_bounds random) st k Hreach).
Qed.

Lemma pipeline_channels_in_bounds_witness :
  exists st,
    reachable midpoint st 204%nat /\
    List.length (sensorData st) = 50%nat /\
    Forall in_bounds (sensorData st).
Proof.
  eexists. split; [| split].
  - apply (reach_mount midpoint 0%Z). vm_compute. reflexivity.
  - vm_compute. reflexivity.
  - apply (pipeline_channels_in_bounds midpoint _ 204%nat).
    apply (reach_mount midpoint 0%Z). vm_compute. reflexivity.
Defined.

(** ** Confidence *)

Lemma confidence_range (r : Q) :
  0 <= r -> r < 1 ->
  Qmin (94 + r * 6) 100 == 94 + 6 * r /\
  94 <= Qmin (94 + r * 6) 100 /\ Qmin (94 + r * 6) 100 < 100.
Proof.
  intros H0 H1.
  assert (E : Qmin (94 + r * 6) 100 == 94 + 6 * r).
  { rewrite Q.min_l by lra. ring. }
  rewrite E. repeat split; try reflexivity; lra.
Qed.




(** ** Labels and the metadata table *)

Lemma labels_in_table (l : string) :
  In l labels ->
  exists st,
    get EMOTIONS l = Some st /\
    EmotionState.emotion st <> "" /\
    EmotionState.color st <> "".
Proof.
  unfold labels. simpl.
  intros [<- | [<- | [<- | [<- | [<- | []]]]]];
    (eexists; split; [reflexivity | split; discriminate]).
Qed.

Lemma str_or_left (s d : string) : s <> "" -> str_or (Some s) d = s.
Proof.
  intros H. unfold str_or.
  destruct (String.eqb s "") eqn:E; [| reflexivity].
  apply String.eqb_eq in E. contradiction.
Qed.

(** C10: the classifier returns one of the five keys of [EMOTIONS] for
    every triple; hence for every sample the simulator produces the
    lookup [EMOTIONS[emotion]] is defined, [currentEmotion] is that entry,
    and the operands [EMOTIONS[emotion]?.emotion] and
    [EMOTIONS[emotion]?.color] are non-empty strings, so that neither
    [||] takes its right-hand default. *)
Theorem classified_label_has_metadata :
  forall random : nat -> Q,
    map fst (entries EMOTIONS) = labels /\
    (forall heartRate eda temperature k,
     exists c,
       classifyEmotion random heartRate eda temperature k = Normal (c, S k) /\
       In (Classified.emotion c)
          ["calm"; "happy"; "stressed"; "focused"; "neutral"]) /\
    (forall prevData now k,
     exists s st,
       generateSensorData random prevData now k
         = Normal (s, S (S (S (S k)))) /\
       In (SensorData.emotion s) labels /\
       get EMOTIONS (SensorData.emotion s) = Some st /\
       currentEmotion (Some s) = Some st /\
       str_or (option_map EmotionState.emotion
                 (get EMOTIONS (SensorData.emotion s)))
              (SensorData.emotion s)
         = EmotionState.emotion st /\
       EmotionState.emotion st <> "" /\
       str_or (option_map EmotionState.color
                 (get EMOTIONS (SensorData.emotion s)))
              "#6B7280"
         = EmotionState.color st /\
       EmotionState.color st <> "").
Proof.
  intros random. split; [reflexivity |]. split.
  - intros heartRate eda temperature k.
    destruct (classifyEmotion_label random heartRate eda temperature k)
      as (c & Hrun & Hin & _).
    exists c. split; [exact Hrun | exact Hin].
  - intros prevData now k.
    destruct (generateSensorData_run random prevData now k)
      as (hr & ed & te & c & _ & _ & _ & _ & Hin & _ & Hrun).
    destruct (labels_in_table (Classified.emotion c) Hin)
      as (st & Hget & Hname & Hcolor).
    eexists. exists st. split; [exact Hrun |].
    cbn [SensorData.emotion currentEmotion].
    rewrite Hget. cbn [option_map].
    repeat split; try assumption; apply str_or_left; assumption.
Qed.

(** ** Label and stored triple *)





(** ** Objects as ordered entries *)

Lemma get_None {V} (o : object V) (key : string) :
  get o key = None <-> ~ In key (map fst o).
Proof.
  induction o as [| [k v] o IH]; simpl.
  - tauto.
  - destruct (String.eqb key k) eqn:E.
    + apply String.eqb_eq in E. subst k.
      split; [discriminate | intros H; exfalso; apply H; left; reflexivity].
    + apply String.eqb_neq in E. rewrite IH.
      split; [intros H [H' | H']; [congruence | tauto] | tauto].
Qed.

Lemma get_Some {V} (o : object V) (key : string) (v : V) :
  get o key = Some v -> In (key, v) o.
Proof.
  induction o as [| [k v0] o IH]; simpl; [discriminate |].
  destruct (String.eqb key k) eqn:E.
  - apply String.eqb_eq in E. subst k.
    intros H. injection H as <-. left. reflexivity.
  - intros H. right. apply IH. exact H.
Qed.

Lemma keys_set_new {V} (o : object V) (key : string) (v : V) :
  ~ In key (map fst o) -> set o key v = o ++ [(key, v)].
Proof.
  induction o as [| [k v0] o IH]; simpl; intros H; [reflexivity |].
  destruct (String.eqb key k) eqn:E.
  - apply String.eqb_eq in E. subst k. exfalso. apply H. left. reflexivity.
  - rewrite IH by tauto. reflexivity.
Qed.

Lemma keys_set_old {V} (o : object V) (key : string) (v : V) :
  In key (map fst o) -> map fst (set o key v) = map fst o.
Proof.
  induction o as [| [k v0] o IH]; simpl; intros H; [contradiction |].
  destruct (String.eqb key k) eqn:E.
  - reflexivity.
  - apply String.eqb_neq in E. simpl. rewrite IH; [reflexivity |].
    destruct H as [H | H]; [congruence | exact H].
Qed.

Lemma In_set {V} (o : object V) (key : string) (v' : V) (k : string) (v : V) :
  NoDup (map fst o) ->
  In (k, v) (set o key v') ->
  (k = key /\ v = v') \/ (k <> key /\ In (k, v) o).
Proof.
  induction o as [| [k0 v0] o IH]; simpl; intros Hnd Hin.
  - destruct Hin as [Hin | []]. injection Hin as <- <-. left. split; reflexivity.
  - inversion Hnd as [| ? ? Hnot Hnd']. subst.
    destruct (String.eqb key k0) eqn:E.
    + apply String.eqb_eq in E. subst k0.
      destruct Hin as [Hin | Hin].
      * injection Hin as <- <-. left. split; reflexivity.
      * right. split; [| right; exact Hin].
        intros ->. apply Hnot.
        change key with (fst (key, v)). apply in_map. exact Hin.
    + apply String.eqb_neq in E.
      destruct Hin as [Hin | Hin].
      * injection Hin as <- <-. right. split; [congruence | left; reflexivity].
      * destruct (IH Hnd' Hin) as [H | [H1 H2]]; [left; exact H |].
        right. split; [exact H1 | right; exact H2].
Qed.

Lemma num_or_zero (v : Q) : num_or (Some v) 0 == v.
Proof.
  unfold num_or. destruct (Qeq_bool v 0) eqn:E; [| reflexivity].
  apply Qeq_bool_eq in E. symmetry. exact E.
Qed.

(** ** The emotion counts *)

Lemma emotionCounts_snoc (h : list SensorData.t) (s : SensorData.t) :
  emotionCounts (h ++ [s])
  = set (emotionCounts h) (SensorData.emotion s)
      (num_or (get (emotionCounts h) (SensorData.emotion s)) 0 + 1).
Proof. unfold emotionCounts. rewrite fold_left_app. reflexivity. Qed.

Lemma occurrences_snoc (key : string) (h : list SensorData.t) (s : SensorData.t) :
  occurrences key (h ++ [s])
  = (occurrences key h
     + if string_dec (SensorData.emotion s) key then 1 else 0)%nat.
Proof.
  unfold occurrences. rewrite map_app, count_occ_app. simpl.
  destruct (string_dec (SensorData.emotion s) key); reflexivity.
Qed.

Lemma snoc_case {A} (l : list A) : l = [] \/ exists l' a, l = l' ++ [a].
Proof.
  induction l as [| a l' _] using rev_ind; [left; reflexivity |].
  right. exists l', a. reflexivity.
Qed.

Lemma emotionCounts_counts (h : list SensorData.t) :
  counts_of h (emotionCounts h).
Proof.
  induction h as [| s h IH] using rev_ind.
  - repeat split; simpl; try tauto; try constructor.
    intros K1 key K2 E. destruct K1; discriminate.
  - destruct IH as (Hnd & Hkeys & Hval & Hord).
    rewrite emotionCounts_snoc.
    set (o := emotionCounts h) in *.
    set (key := SensorData.emotion s).
    set (v' := num_or (get o key) 0 + 1).
    assert (Hval' : forall k v, In (k, v) (set o key v') ->
              v == inject_Z (Z.of_nat (occurrences k (h ++ [s])))).
    { intros k v Hin. rewrite occurrences_snoc. fold key.
      destruct (In_set o key v' k v Hnd Hin) as [[-> ->] | [Hne Hin']].
      - destruct (string_dec key key) as [_ | C]; [| congruence].
        unfold v'. destruct (get o key) as [v0 |] eqn:Eg.
        + rewrite num_or_zero, (Hval key v0 (get_Some o key v0 Eg)).
          rewrite Nat2Z.inj_add, inject_Z_plus. reflexivity.
        + apply get_None in Eg. rewrite Hkeys in Eg.
          apply (count_occ_not_In string_dec) in Eg.
          unfold occurrences. rewrite Eg. reflexivity.
      - destruct (string_dec key k) as [C | _]; [congruence |].
        rewrite Nat.add_0_r. apply Hval. exact Hin'. }
    destruct (in_dec string_dec key (map fst o)) as [Hin | Hnin].
    + assert (Ek : map fst (set o key v') = map fst o)
        by (apply keys_set_old; exact Hin).
      split; [rewrite Ek; exact Hnd |].
      split; [| split; [exact Hval' |]].
      * intros k. rewrite Ek, map_app, in_app_iff, Hkeys. simpl.
        split; [tauto |].
        intros [H | [<- | []]]; [exact H |].
        apply Hkeys. exact Hin.
      * intros K1 k K2 E. rewrite Ek in E.
        destruct (Hord K1 k K2 E) as (h1 & s0 & h2 & Eh & Es & Hfirst & Hbefore).
        exists h1, s0, (h2 ++ [s]).
        split; [rewrite Eh, <- app_assoc; reflexivity |].
        repeat split; assumption.
    + assert (Ek : map fst (set o key v') = map fst o ++ [key]).
      { rewrite (keys_set_new o key v' Hnin), map_app. reflexivity. }
      split; [| split; [| split; [exact Hval' |]]].
      * rewrite Ek. apply NoDup_app; [exact Hnd | repeat constructor; simpl; tauto |].
        intros a Ha [<- | []]. contradiction.
      * intros k. rewrite Ek, map_app, !in_app_iff, Hkeys. reflexivity.
      * intros K1 k K2 E. rewrite Ek in E.
        destruct (snoc_case K2) as [-> | (K2' & z & ->)].
        -- apply app_inj_tail in E. destruct E as [E1 E2].
           exists h, s, []. split; [reflexivity |].
           split; [rewrite <- E2; reflexivity |].
           split.
           ++ rewrite <- E2, <- Hkeys. exact Hnin.
           ++ intros k' Hk'. apply Hkeys. rewrite E1. exact Hk'.
        -- rewrite app_comm_cons, app_assoc in E.
           apply app_inj_tail in E. destruct E as [E1 _].
           destruct (Hord K1 k K2' E1)
             as (h1 & s0 & h2 & Eh & Es & Hfirst & Hbefore).
           exists h1, s0, (h2 ++ [s]).
           split; [rewrite Eh, <- app_assoc; reflexivity |].
           repeat split; assumption.
Qed.

Lemma count_le_of_Qle (a b : nat) :
  inject_Z (Z.of_nat a) <= inject_Z (Z.of_nat b) -> (a <= b)%nat.
Proof. rewrite <- Zle_Qle. lia. Qed.

Lemma count_lt_of_Qlt (a b : nat) :
  inject_Z (Z.of_nat a) < inject_Z (Z.of_nat b) -> (a < b)%nat.
Proof. rewrite <- Zlt_Qlt. lia. Qed.

(** C6 (as amended): on an empty history the cell shows the sentinel
    "N/A"; on a non-empty one it never throws and shows a label of maximal
    count, and among the labels of maximal count the one whose FIRST
    occurrence in the history comes latest (every other label with the
    same count already occurs before it). *)
Theorem dominantEmotion_max_count_latest_first_seen :
  forall h : list SensorData.t,
    labelled h ->
    (h = [] -> dominantEmotion h = Normal "N/A") /\
    (h <> [] ->
     exists l h1 s h2,
       dominantEmotion h = Normal l /\
       h = h1 ++ s :: h2 /\
       SensorData.emotion s = l /\
       ~ In l (map SensorData.emotion h1) /\
       forall l',
         (occurrences l' h <= occurrences l h)%nat /\
         (occurrences l' h = occurrences l h ->
          l' = l \/ In l' (map SensorData.emotion h1))).
Proof.
  intros h _. split; [intros ->; reflexivity |].
  intros Hne.
  destruct (emotionCounts_counts h) as (Hnd & Hkeys & Hval & Hord).
  assert (Hlen : (0 <? List.length h)%nat = true).
  { apply Nat.ltb_lt. destruct h; [congruence | simpl; lia]. }
  assert (Hne' : entries (emotionCounts h) <> []).
  { unfold entries. destruct h as [| s0 h']; [congruence |].
    intros E. specialize (Hkeys (SensorData.emotion s0)).
    rewrite E in Hkeys. simpl in Hkeys. tauto. }
  destruct (reduce_greater_last_max (entries (emotionCounts h)) Hne')
    as ([l c] & pre & post & Hred & Harr & Hpre & Hpost).
  unfold entries in *.
  assert (Ekeys : map fst (emotionCounts h) = map fst pre ++ l :: map fst post).
  { rewrite Harr, map_app. reflexivity. }
  destruct (Hord _ _ _ Ekeys) as (h1 & s & h2 & Eh & Es & Hfirst & Hbefore).
  assert (Hc : c == inject_Z (Z.of_nat (occurrences l h))).
  { apply Hval. rewrite Harr. apply in_or_app. right. left. reflexivity. }
  assert (Hpos : (0 < occurrences l h)%nat).
  { unfold occurrences. apply (count_occ_In string_dec).
    rewrite Eh, map_app. apply in_or_app. right. left. exact Es. }
  exists l, h1, s, h2.
  split; [unfold dominantEmotion; rewrite Hlen; unfold entries; rewrite Hred; reflexivity |].
  split; [exact Eh |]. split; [exact Es |]. split; [exact Hfirst |].
  intros l'.
  destruct (in_dec string_dec l' (map SensorData.emotion h)) as [Hin | Hnin].
  - apply Hkeys in Hin. apply in_map_iff in Hin.
    destruct Hin as ([k v] & Ek & Hin). simpl in Ek. subst k.
    pose proof (Hval l' v Hin) as Hv.
    rewrite Harr in Hin. apply in_app_or in Hin.
    destruct Hin as [Hin | [Hin | Hin]].
    + rewrite Forall_forall in Hpre. specialize (Hpre _ Hin). simpl in Hpre.
      rewrite Hv, Hc in Hpre. apply count_le_of_Qle in Hpre.
      split; [exact Hpre |]. intros _. right.
      apply Hbefore. change l' with (fst (l', v)). apply in_map. exact Hin.
    + injection Hin as -> _. split; [lia | intros _; left; reflexivity].
    + rewrite Forall_forall in Hpost. specialize (Hpost _ Hin). simpl in Hpost.
      rewrite Hv, Hc in Hpost. apply count_lt_of_Qlt in Hpost.
      split; lia.
  - apply (count_occ_not_In string_dec) in Hnin.
    unfold occurrences at 1 3. rewrite Hnin. split; lia.
Qed.

Lemma dominantEmotion_max_count_latest_first_seen_witness :
  dominantEmotion [reading 0 "calm"; reading 1 "neutral"; reading 2 "calm"]
    = Normal "calm" /\
  exists l h1 s h2,
    dominantEmotion [reading 0 "calm"; reading 1 "neutral"; reading 2 "calm"]
      = Normal l /\
    [reading 0 "calm"; reading 1 "neutral"; reading 2 "calm"]
      = h1 ++ s :: h2 /\
    SensorData.emotion s = l /\
    ~ In l (map SensorData.emotion h1) /\
    forall l',
      (occurrences l' [reading 0 "calm"; reading 1 "neutral"; reading 2 "calm"]
       <= occurrences l [reading 0 "calm"; reading 1 "neutral"; reading 2 "calm"])%nat /\
      (occurrences l' [reading 0 "calm"; reading 1 "neutral"; reading 2 "calm"]
       = occurrences l [reading 0 "calm"; reading 1 "neutral"; reading 2 "calm"] ->
       l' = l \/ In l' (map SensorData.emotion h1)).
Proof.
  split; [vm_compute; reflexivity |].
  apply (dominantEmotion_max_count_latest_first_seen
           [reading 0 "calm"; reading 1 "neutral"; reading 2 "calm"]).
  - unfold labelled. repeat (apply Forall_cons; [simpl; auto 10 |]).
    apply Forall_nil.
  - discriminate.
Defined.

(** C6, the claim as written fails: with one calm and then one neutral
    sample both counts are 1, calm precedes neutral in the claimed
    priority order, and the cell shows neutral; with the two samples in
    the other order it shows calm. *)
Lemma dominantEmotion_tie_not_by_priority :
  emotionCounts [reading 0 "calm"; reading 1 "neutral"]
    = [("calm", 1); ("neutral", 1)] /\
  dominantEmotion [reading 0 "calm"; reading 1 "neutral"] = Normal "neutral" /\
  "neutral" <> "calm" /\
  dominantEmotion [reading 0 "neutral"; reading 1 "calm"] = Normal "calm".
Proof.
  split; [vm_compute; reflexivity |].
  split; [vm_compute; reflexivity |].
  split; [discriminate | vm_compute; reflexivity].
Qed.

(** Every slice of the pie chart takes its name and colour from the
    table when the history is labelled with keys of the table. *)
Lemma pieData_from_table (h : list SensorData.t) :
  labelled h ->
  Forall (fun d => exists key st,
                     get EMOTIONS key = Some st /\
                     name d = EmotionState.emotion st /\
                     fill d = EmotionState.color st)
         (pieData h).
Proof.
  intros Hlab. unfold pieData. apply Forall_map. apply Forall_forall.
  intros [key v] Hin.
  destruct (emotionCounts_counts h) as (_ & Hkeys & _ & _).
  assert (Hk : In key (map SensorData.emotion h)).
  { apply Hkeys. change key with (fst (key, v)). apply in_map. exact Hin. }
  apply in_map_iff in Hk. destruct Hk as (s & Es & Hs).
  unfold labelled in Hlab. rewrite Forall_forall in Hlab.
  specialize (Hlab s Hs). rewrite Es in Hlab.
  destruct (labels_in_table key Hlab) as (st & Hget & Hname & Hcolor).
  exists key, st. cbn [name fill]. rewrite Hget. cbn [option_map].
  split; [reflexivity |]. split; apply str_or_left; assumption.
Qed.

(** ** Retention *)

Lemma bind_Normal {A B} (m : M A) (f : A -> M B) (k : nat) (r : B * nat) :
  bind m f k = Normal r ->
  exists a k', m k = Normal (a, k') /\ f a k' = Normal r.
Proof.
  unfold bind. destruct (m k) as [[a k'] | e]; [| discriminate].
  intros H. exists a, k'. split; [reflexivity | exact H].
Qed.

Lemma tick_isTracking (random : nat -> Q) now st k st' k' :
  tick random now st k = Normal (st', k') ->
  isTracking st' = isTracking st.
Proof.
  unfold tick. intros H. apply bind_Normal in H.
  destruct H as (r & k1 & _ & H). injection H as <- _. reflexivity.
Qed.

Lemma ticks_reachable (random : nat -> Q) (n : nat) :
  forall now st k st' k',
    reachable random st k ->
    isTracking st = true ->
    ticks random n now st k = Normal (st', k') ->
    reachable random st' k'.
Proof.
  induction n as [| n IH]; intros now st k st' k' Hreach Htr Hrun.
  - injection Hrun as <- <-. exact Hreach.
  - cbn [ticks] in Hrun. apply bind_Normal in Hrun.
    destruct Hrun as (st1 & k1 & Et & Hrun).
    apply (IH now st1 k1 st' k'); [| | exact Hrun].
    + apply (reach_tick random now st k st1 k1 Hreach Htr Et).
    + rewrite (tick_isTracking random now st k st1 k1 Et). exact Htr.
Qed.

(** C1, on the code: the updater keeps the last 100 retained readings
    and THEN adds the new one, so a history of 100 or more grows to 101.
    Appending 101 readings to an empty history leaves 101 of them, the
    first one still at the head; and the dashboard reaches a state with
    101 retained samples (the bootstrap, a click on the tracking button
    and 51 ticks). *)
Theorem appendReading_retains_101 :
  (forall prev newReading,
     List.length (appendReading prev newReading)
     = S (Nat.min (List.length prev) 100)) /\
  (let history :=
     fold_left appendReading
       (map (fun i => reading (Z.of_nat i) "calm") (seq 0 101)) [] in
   List.length history = 101%nat /\
   hd_error history = Some (reading 0 "calm")) /\
  (exists st,
     reachable midpoint st 408%nat /\
     List.length (sensorData st) = 101%nat).
Proof.
  split; [exact appendReading_length |].
  split; [split; vm_compute; reflexivity |].
  assert (Hrun : exists st,
             (st0 <- initialize midpoint 0%Z initialState ;;
              ticks midpoint 51 0%Z (toggleTracking st0)) 0%nat
             = Normal (st, 408%nat) /\
             List.length (sensorData st) = 101%nat).
  { eexists. split; vm_compute; reflexivity. }
  destruct Hrun as (st & Hrun & Hlen).
  exists st. split; [| exact Hlen].
  apply bind_Normal in Hrun. destruct Hrun as (st0 & k0 & Hinit & Hticks).
  assert (Htr : isTracking st0 = false).
  { apply (initialize_isTracking midpoint 0%Z initialState 0%nat st0 k0).
    exact Hinit. }
  apply (ticks_reachable midpoint 51 0%Z (toggleTracking st0) k0 st 408%nat);
    [| | exact Hticks].
  - apply reach_toggle. apply (reach_mount midpoint 0%Z). exact Hinit.
  - unfold toggleTracking. cbn [isTracking]. rewrite Htr. reflexivity.
Qed.

(** * Further properties of the dashboard *)

(** ** Which label wins *)

(** The five ways [reduce greater] can end on an array of five entries:
    the selected entry is at least every earlier one and strictly above
    every later one. *)
Lemma fold_greater_five {K} (a b c d e : K * Q) :
  let r := fold_left greater [b; c; d; e] a in
  (r = a /\ snd b < snd a /\ snd c < snd a /\ snd d < snd a /\ snd e < snd a) \/
  (r = b /\ snd a <= snd b /\ snd c < snd b /\ snd d < snd b /\ snd e < snd b) \/
  (r = c /\ snd a <= snd c /\ snd b <= snd c /\ snd d < snd c /\ snd e < snd c) \/
  (r = d /\ snd a <= snd d /\ snd b <= snd d /\ snd c <= snd d /\ snd e < snd d) \/
  (r = e /\ snd a <= snd e /\ snd b <= snd e /\ snd c <= snd e /\ snd d <= snd e).
Proof.
  cbv zeta.
  destruct (fold_greater_last_max [b; c; d; e] a)
    as (pre & post & E & Hpre & Hpost).
  remember (fold_left greater [b; c; d; e] a) as r eqn:Er. clear Er.
  assert (F1 : forall (P : K * Q -> Prop) x l,
             Forall P (x :: l) -> P x /\ Forall P l)
    by (intros P x l H; inversion H; split; assumption).
  destruct pre as [| p1 [| p2 [| p3 [| p4 [| p5 pre]]]]]; simpl in E.
  - injection E as E1 E2. subst post r. left.
    repeat (apply F1 in Hpost; destruct Hpost as [? Hpost]).
    repeat split; assumption.
  - injection E as Ea E1 E2. subst post r p1. right. left.
    repeat (apply F1 in Hpost; destruct Hpost as [? Hpost]).
    repeat (apply F1 in Hpre; destruct Hpre as [? Hpre]).
    repeat split; assumption.
  - injection E as Ea Eb E1 E2. subst post r p1 p2. right. right. left.
    repeat (apply F1 in Hpost; destruct Hpost as [? Hpost]).
    repeat (apply F1 in Hpre; destruct Hpre as [? Hpre]).
    repeat split; assumption.
  - injection E as Ea Eb Ec E1 E2. subst post r p1 p2 p3.
    right. right. right. left.
    repeat (apply F1 in Hpost; destruct Hpost as [? Hpost]).
    repeat (apply F1 in Hpre; destruct Hpre as [? Hpre]).
    repeat split; assumption.
  - injection E as Ea Eb Ec Ed E1 E2. subst r p1 p2 p3 p4.
    right. right. right. right.
    repeat (apply F1 in Hpre; destruct Hpre as [? Hpre]).
    repeat split; assumption.
  - exfalso. apply (f_equal (@List.length _)) in E.
    simpl in E. rewrite length_app in E. simpl in E. lia.
Qed.

Lemma Qabs_bounds (x : Q) :
  x <= Qabs x /\ - x <= Qabs x /\ (Qabs x == x \/ Qabs x == - x).
Proof.
  split; [apply Qle_Qabs |].
  split; [rewrite <- Qabs_opp; apply Qle_Qabs |].
  destruct (Qlt_le_dec x 0) as [H | H].
  - right. apply Qabs_neg. lra.
  - left. apply Qabs_pos. exact H.
Qed.

(** The classifier in terms of the normalised features [f0], [f1], [f2]:
    the label it returns and the comparisons of scores that select it. *)
Lemma classifyEmotion_cases (random : nat -> Q) (heartRate eda temperature : Q)
  (k : nat) :
  let f0 := (heartRate - 70) / 50 in
  let f1 := (eda - 5) / 10 in
  let f2 := (temperature - 36.5) / 2 in
  let calm := - f0 * 0.5 - f1 * 0.3 + f2 * 0.2 in
  let happy := f0 * 0.3 - f1 * 0.2 + f2 * 0.4 in
  let stressed := f0 * 0.8 + f1 * 0.6 - f2 * 0.1 in
  let focused := f0 * 0.4 + f1 * 0.1 + f2 * 0.1 in
  let neutral := - Qabs f0 - Qabs f1 - Qabs f2 in
  exists c,
    classifyEmotion random heartRate eda temperature k = Normal (c, S k) /\
    ((Classified.emotion c = "calm" /\
      happy < calm /\ stressed < calm /\ focused < calm /\ neutral < calm) \/
     (Classified.emotion c = "happy" /\
      calm <= happy /\ stressed < happy /\ focused < happy /\ neutral < happy) \/
     (Classified.emotion c = "stressed" /\
      calm <= stressed /\ happy <= stressed /\ focused < stressed /\
      neutral < stressed) \/
     (Classified.emotion c = "focused" /\
      calm <= focused /\ happy <= focused /\ stressed <= focused /\
      neutral < focused) \/
     (Classified.emotion c = "neutral" /\
      calm <= neutral /\ happy <= neutral /\ stressed <= neutral /\
      focused <= neutral)).
Proof.
  intros f0 f1 f2 calm happy stressed focused neutral.
  destruct (classifyEmotion_run random heartRate eda temperature k)
    as (maxEntry & Hred & Hrun).
  eexists. split; [exact Hrun |].
  change (Classified.emotion
            (Classified.mk (fst maxEntry) (Qmin (94 + random k * 6) 100)))
    with (fst maxEntry).
  assert (Hfold : reduce greater (entries (scores heartRate eda temperature))
                  = Normal (fold_left greater
                              [("happy", happy); ("stressed", stressed);
                               ("focused", focused); ("neutral", neutral)]
                              ("calm", calm)))
    by reflexivity.
  pose proof (fold_greater_five ("calm", calm) ("happy", happy)
                ("stressed", stressed) ("focused", focused)
                ("neutral", neutral)) as H.
  cbv zeta in H.
  remember (fold_left greater
              [("happy", happy); ("stressed", stressed);
               ("focused", focused); ("neutral", neutral)]
              ("calm", calm)) as r eqn:Er.
  clear Er. cbv beta iota delta [snd] in H.
  rewrite Hfold in Hred. injection Hred as <-. clear Hrun Hfold.
  destruct H as [[-> H] | [[-> H] | [[-> H] | [[-> H] | [-> H]]]]];
    cbv beta iota delta [fst].
  - left. split; [reflexivity | exact H].
  - right. left. split; [reflexivity | exact H].
  - right. right. left. split; [reflexivity | exact H].
  - right. right. right. left. split; [reflexivity | exact H].
  - right. right. right. right. split; [reflexivity | exact H].
Qed.

(** Prepares the comparisons of [classifyEmotion_cases] for linear
    arithmetic: the absolute values become variables with their bounds. *)
Ltac linearise_scores f0 f1 f2 :=
  let A0 := fresh "A0" in
  let A1 := fresh "A1" in
  let A2 := fresh "A2" in
  destruct (Qabs_bounds f0) as (? & ? & ?);
  destruct (Qabs_bounds f1) as (? & ? & ?);
  destruct (Qabs_bounds f2) as (? & ? & ?);
  set (A0 := Qabs f0) in *; clearbody A0;
  set (A1 := Qabs f1) in *; clearbody A1;
  set (A2 := Qabs f2) in *; clearbody A2.

(** The normalised features as products, which linear arithmetic reads. *)
Lemma features_linear (heartRate eda temperature : Q) :
  (heartRate - 70) / 50 == (heartRate - 70) * (1 # 50) /\
  (eda - 5) / 10 == (eda - 5) * (1 # 10) /\
  (temperature - 36.5) / 2 == (temperature - 36.5) * (1 # 2).
Proof. repeat split; reflexivity. Qed.

(** X1: the classifier answers neutral exactly at the centre of the
    normalisation, heartRate 70, eda 5 and temperature 36.5, and nowhere
    else. *)
Theorem classifyEmotion_neutral_iff_centre :
  forall (random : nat -> Q) (heartRate eda temperature : Q) (k : nat),
  exists c,
    classifyEmotion random heartRate eda temperature k = Normal (c, S k) /\
    (Classified.emotion c = "neutral" <->
     heartRate == 70 /\ eda == 5 /\ temperature == 36.5).
Proof.
  intros random heartRate eda temperature k.
  destruct (classifyEmotion_cases random heartRate eda temperature k)
    as (c & Hrun & H).
  exists c. split; [exact Hrun |].
  cbv zeta in H.
  set (f0 := (heartRate - 70) / 50) in *.
  set (f1 := (eda - 5) / 10) in *.
  set (f2 := (temperature - 36.5) / 2) in *.
  linearise_scores f0 f1 f2.
  assert (Hc : heartRate == 70 /\ eda == 5 /\ temperature == 36.5 <->
               f0 == 0 /\ f1 == 0 /\ f2 == 0).
  { destruct (features_linear heartRate eda temperature) as (L0 & L1 & L2).
    fold f0 in L0. fold f1 in L1. fold f2 in L2.
    split; intros (E0 & E1 & E2); repeat split; lra. }
  rewrite Hc. clearbody f0 f1 f2.
  destruct H as [[-> H] | [[-> H] | [[-> H] | [[-> H] | [-> H]]]]].
  1-4: split; [discriminate | intros (E0 & E1 & E2); exfalso;
               repeat match goal with
                      | D : _ \/ _ |- _ => destruct D
                      end; lra].
  split; [intros _ | reflexivity].
  repeat split; lra.
Qed.

(** X2: a heart rate of at least 70 and an EDA of at least 5 together
    with a temperature of at most 36.5 are always classified as stressed,
    except at the centre (70, 5, 36.5) itself. *)
Theorem classifyEmotion_stressed_region :
  forall (random : nat -> Q) (heartRate eda temperature : Q) (k : nat),
    70 <= heartRate -> 5 <= eda -> temperature <= 36.5 ->
    ~ (heartRate == 70 /\ eda == 5 /\ temperature == 36.5) ->
    exists c,
      classifyEmotion random heartRate eda temperature k = Normal (c, S k) /\
      Classified.emotion c = "stressed".
Proof.
  intros random heartRate eda temperature k Hh He Ht Hne.
  destruct (classifyEmotion_cases random heartRate eda temperature k)
    as (c & Hrun & H).
  exists c. split; [exact Hrun |].
  cbv zeta in H.
  set (f0 := (heartRate - 70) / 50) in *.
  set (f1 := (eda - 5) / 10) in *.
  set (f2 := (temperature - 36.5) / 2) in *.
  destruct (features_linear heartRate eda temperature) as (L0 & L1 & L2).
  fold f0 in L0. fold f1 in L1. fold f2 in L2.
  assert (H0 : 0 <= f0) by lra.
  assert (H1 : 0 <= f1) by lra.
  assert (H2 : f2 <= 0) by lra.
  assert (Hnz : ~ (f0 == 0 /\ f1 == 0 /\ f2 == 0)).
  { intros (E0 & E1 & E2). apply Hne. repeat split; lra. }
  clear L0 L1 L2.
  linearise_scores f0 f1 f2.
  clearbody f0 f1 f2.
  destruct H as [[E H] | [[E H] | [[E H] | [[E H] | [E H]]]]];
    try exact E; exfalso.
  1-2: lra.
  all: apply Hnz; repeat split; lra.
Qed.

Lemma classifyEmotion_stressed_region_witness :
  exists c,
    classifyEmotion midpoint 95 9 36.2 0%nat = Normal (c, 1%nat) /\
    Classified.emotion c = "stressed".
Proof.
  apply (classifyEmotion_stressed_region midpoint 95 9 36.2 0%nat).
  - unfold Qle; simpl; lia.
  - unfold Qle; simpl; lia.
  - unfold Qle; simpl; lia.
  - intros (E & _). unfold Qeq in E; simpl in E; lia.
Defined.

(** ** The distribution *)

(** X3: looking a label up in [emotionCounts] gives nothing exactly when
    no retained sample carries it, and otherwise the number of samples
    that carry it, which is then at least 1. *)
Theorem emotionCounts_lookup :
  forall (h : list SensorData.t) (key : string),
    labelled h ->
    (get (emotionCounts h) key = None <-> occurrences key h = 0%nat) /\
    (forall v, get (emotionCounts h) key = Some v ->
               v == inject_Z (Z.of_nat (occurrences key h)) /\
               (1 <= occurrences key h)%nat).
Proof.
  intros h key _.
  destruct (emotionCounts_counts h) as (_ & Hkeys & Hval & _).
  split.
  - rewrite get_None, Hkeys. unfold occurrences.
    apply (count_occ_not_In string_dec).
  - intros v Hv. apply get_Some in Hv.
    split; [apply Hval; exact Hv |].
    unfold occurrences. apply (count_occ_In string_dec), Hkeys.
    change key with (fst (key, v)). apply in_map. exact Hv.
Qed.

Lemma emotionCounts_lookup_witness :
  (get (emotionCounts [reading 0 "calm"; reading 1 "stressed"; reading 2 "calm"])
       "calm" = None <->
   occurrences "calm" [reading 0 "calm"; reading 1 "stressed"; reading 2 "calm"]
   = 0%nat) /\
  (forall v,
     get (emotionCounts [reading 0 "calm"; reading 1 "stressed"; reading 2 "calm"])
         "calm" = Some v ->
     v == inject_Z (Z.of_nat
            (occurrences "calm"
               [reading 0 "calm"; reading 1 "stressed"; reading 2 "calm"])) /\
     (1 <= occurrences "calm"
             [reading 0 "calm"; reading 1 "stressed"; reading 2 "calm"])%nat).
Proof.
  apply (emotionCounts_lookup
           [reading 0 "calm"; reading 1 "stressed"; reading 2 "calm"] "calm").
  unfold labelled. repeat (apply Forall_cons; [simpl; auto 10 |]).
  apply Forall_nil.
Defined.

Lemma total_set (o : object Q) (key : string) :
  total (set o key (num_or (get o key) 0 + 1)) == total o + 1.
Proof.
  assert (Hcons : forall e o', total (e :: o') = snd e + total o')
    by reflexivity.
  induction o as [| [k v0] o IH]; cbn [get set].
  - rewrite Hcons. cbn [snd]. reflexivity.
  - destruct (String.eqb key k) eqn:E; rewrite !Hcons; cbn [snd].
    + rewrite num_or_zero. ring.
    + rewrite IH. ring.
Qed.

Lemma emotionCounts_total (h : list SensorData.t) :
  total (emotionCounts h) == num_length h.
Proof.
  induction h as [| s h IH] using rev_ind.
  - reflexivity.
  - rewrite emotionCounts_snoc, total_set, IH.
    unfold num_length. rewrite length_app. simpl.
    rewrite Nat2Z.inj_add, inject_Z_plus. reflexivity.
Qed.

(** X4: the counts of [emotionCounts] add up to the number of retained
    samples, and so do the values of the slices of the pie chart. *)
Theorem distribution_sums_to_length :
  forall h : list SensorData.t,
    labelled h ->
    total (emotionCounts h) == num_length h /\
    fold_right (fun d acc => value d + acc) 0 (pieData h) == num_length h.
Proof.
  intros h _. split; [apply emotionCounts_total |].
  rewrite <- (emotionCounts_total h).
  unfold pieData, entries.
  induction (emotionCounts h) as [| [k v] o IH]; simpl; [reflexivity |].
  rewrite IH. reflexivity.
Qed.

Lemma distribution_sums_to_length_witness :
  total (emotionCounts [reading 0 "calm"; reading 1 "stressed"; reading 2 "calm"])
    == 3 /\
  fold_right (fun d acc => value d + acc) 0
    (pieData [reading 0 "calm"; reading 1 "stressed"; reading 2 "calm"]) == 3.
Proof.
  apply (distribution_sums_to_length
           [reading 0 "calm"; reading 1 "stressed"; reading 2 "calm"]).
  unfold labelled. repeat (apply Forall_cons; [simpl; auto 10 |]).
  apply Forall_nil.
Defined.

Lemma Forall2_map_same {A B C} (R : B -> C -> Prop) (f : A -> B) (g : A -> C)
  (l : list A) :
  (forall x, In x l -> R (f x) (g x)) -> Forall2 R (map f l) (map g l).
Proof.
  induction l as [| x l IH]; intros H; simpl; constructor.
  - apply H. left. reflexivity.
  - apply IH. intros y Hy. apply H. right. exact Hy.
Qed.

(** X5: the pie chart has exactly one slice per label that occurs in the
    history, in the order in which the labels first occur; each slice
    takes its name and colour from [EMOTIONS] and its value is the number
    of samples with that label. *)
Theorem pieData_slices :
  forall h : list SensorData.t,
    labelled h ->
    exists keys,
      NoDup keys /\
      (forall key, In key keys <-> In key (map SensorData.emotion h)) /\
      Forall2 (fun key d =>
                 exists st,
                   get EMOTIONS key = Some st /\
                   name d = EmotionState.emotion st /\
                   fill d = EmotionState.color st /\
                   value d == inject_Z (Z.of_nat (occurrences key h)))
              keys (pieData h).
Proof.
  intros h Hlab.
  destruct (emotionCounts_counts h) as (Hnd & Hkeys & Hval & _).
  exists (map fst (emotionCounts h)).
  split; [exact Hnd |]. split; [exact Hkeys |].
  unfold pieData, entries. apply Forall2_map_same.
  intros [key v] Hin. cbn [fst].
  assert (Hk : In key (map SensorData.emotion h)).
  { apply Hkeys. change key with (fst (key, v)). apply in_map. exact Hin. }
  apply in_map_iff in Hk. destruct Hk as (s & Es & Hs).
  unfold labelled in Hlab. rewrite Forall_forall in Hlab.
  specialize (Hlab s Hs). rewrite Es in Hlab.
  destruct (labels_in_table key Hlab) as (st & Hget & Hname & Hcolor).
  exists st. cbn [name fill value]. rewrite Hget. cbn [option_map].
  split; [reflexivity |].
  split; [apply str_or_left; exact Hname |].
  split; [apply str_or_left; exact Hcolor |].
  apply Hval. exact Hin.
Qed.

Lemma pieData_slices_witness :
  exists keys,
    NoDup keys /\
    (forall key,
       In key keys <->
       In key (map SensorData.emotion
                 [reading 0 "calm"; reading 1 "stressed"; reading 2 "calm"])) /\
    Forall2 (fun key d =>
               exists st,
                 get EMOTIONS key = Some st /\
                 name d = EmotionState.emotion st /\
                 fill d = EmotionState.color st /\
                 value d == inject_Z (Z.of_nat
                   (occurrences key
                      [reading 0 "calm"; reading 1 "stressed"; reading 2 "calm"])))
            keys
            (pieData [reading 0 "calm"; reading 1 "stressed"; reading 2 "calm"]).
Proof.
  apply (pieData_slices
           [reading 0 "calm"; reading 1 "stressed"; reading 2 "calm"]).
  unfold labelled. repeat (apply Forall_cons; [simpl; auto 10 |]).
  apply Forall_nil.
Defined.

(** X6: the "Stress Episodes" cell shows the number of retained samples
    labelled stressed, 0 when there is none. *)
Theorem stressEpisodes_counts_stressed :
  forall h : list SensorData.t,
    labelled h ->
    stressEpisodes h == inject_Z (Z.of_nat (occurrences "stressed" h)).
Proof.
  intros h _. unfold stressEpisodes.
  destruct (emotionCounts_counts h) as (_ & Hkeys & Hval & _).
  destruct (get (emotionCounts h) "stressed") as [v |] eqn:E.
  - rewrite num_or_zero. apply Hval. apply get_Some. exact E.
  - apply get_None in E. rewrite Hkeys in E.
    apply (count_occ_not_In string_dec) in E.
    unfold occurrences. rewrite E. reflexivity.
Qed.

Lemma stressEpisodes_counts_stressed_witness :
  stressEpisodes [reading 0 "calm"; reading 1 "stressed"; reading 2 "calm"]
  == inject_Z (Z.of_nat
       (occurrences "stressed"
          [reading 0 "calm"; reading 1 "stressed"; reading 2 "calm"])).
Proof.
  apply (stressEpisodes_counts_stressed
           [reading 0 "calm"; reading 1 "stressed"; reading 2 "calm"]).
  unfold labelled. repeat (apply Forall_cons; [simpl; auto 10 |]).
  apply Forall_nil.
Defined.

(** ** Retention and the shape of the state *)

(** X7: appending evicts from the front only: the history splits into the
    evicted oldest readings and the retained ones, as many are evicted as
    the history exceeds 100, and the result is the retained ones in their
    order followed by the new reading. *)
Theorem appendReading_fifo :
  forall (prev : list SensorData.t) (newReading : SensorData.t),
  exists evicted retained,
    prev = evicted ++ retained /\
    List.length evicted = (List.length prev - 100)%nat /\
    appendReading prev newReading = retained ++ [newReading].
Proof.
  intros prev newReading.
  exists (firstn (List.length prev - 100) prev),
         (skipn (List.length prev - 100) prev).
  split; [symmetry; apply firstn_skipn |].
  split; [rewrite length_firstn; lia | reflexivity].
Qed.

Lemma last_cons {A} (a : A) (l : list A) (d : A) :
  List.last (a :: l) d = List.last l a.
Proof.
  revert a d. induction l as [| b l IH]; intros a d; [reflexivity |].
  change (List.last (a :: b :: l) d) with (List.last (b :: l) d).
  rewrite (IH b d), (IH b a). reflexivity.
Qed.

(** What the bootstrap loop returns: the readings it pushed, one per
    iteration, stamped 30 seconds apart, and the last of them. *)
Lemma initLoop_shape (random : nat -> Q) (n : nat) :
  forall (i now : Z) lastReading initialData k data last k',
    initLoop random n i now lastReading initialData k
      = Normal ((data, last), k') ->
    exists pushed,
      data = initialData ++ pushed /\
      List.length pushed = n /\
      List.last pushed lastReading = last /\
      map SensorData.timestamp pushed
        = map (fun j => (now - (50 - (i + Z.of_nat j)) * 30000)%Z) (seq 0 n).
Proof.
  induction n as [| n IH]; intros i now lastReading initialData k data last k' H.
  - injection H as <- <- _. exists []. rewrite app_nil_r.
    repeat split; reflexivity.
  - cbn [initLoop] in H. apply bind_Normal in H.
    destruct H as (g & k1 & _ & H).
    apply IH in H. destruct H as (pushed & Ed & El & Elast & Ets).
    set (r := set_timestamp g (now - (50 - i) * 30000)%Z) in *.
    exists (r :: pushed).
    split; [rewrite Ed, <- app_assoc; reflexivity |].
    split; [simpl; rewrite El; reflexivity |].
    split; [rewrite last_cons; exact Elast |].
    cbn [map seq]. f_equal.
    + cbn [SensorData.timestamp r set_timestamp]. unfold r, set_timestamp.
      cbn [SensorData.timestamp]. f_equal. f_equal. lia.
    + rewrite Ets, <- seq_shift, map_map. apply map_ext.
      intros j. f_equal. f_equal. lia.
Qed.

(** What the mount effect changes: the history and the current reading;
    the flags and the battery level are left as they were. *)
Lemma initialize_shape (random : nat -> Q) now st k st' k' :
  initialize random now st k = Normal (st', k') ->
  isTracking st' = isTracking st /\
  batteryLevel st' = batteryLevel st /\
  isConnected st' = isConnected st /\
  List.length (sensorData st') = 50%nat /\
  currentReading st'
    = Some (List.last (sensorData st') (reading 0 "")) /\
  map SensorData.timestamp (sensorData st')
    = map (fun j => (now - (50 - Z.of_nat j) * 30000)%Z) (seq 0 50).
Proof.
  intros H.
  destruct (generateSensorData_total random None now k) as (first & Hfirst & _).
  destruct (initLoop_run random (fun _ => True)
              (generateSensorData_total random) 50 0%Z now first []
              (S (S (S (S k)))) (Forall_nil _) I)
    as (data & last & Hloop & _).
  assert (E : initialize random now st k
              = Normal (mkApp (isTracking st) data (Some last)
                          (batteryLevel st) (isConnected st),
                        (4 * 50 + S (S (S (S k))))%nat)).
  { unfold initialize. unfold bind at 1. rewrite Hfirst.
    unfold bind at 1. rewrite Hloop. reflexivity. }
  rewrite E in H. injection H as <- _. clear E.
  apply initLoop_shape in Hloop.
  destruct Hloop as (pushed & Ed & El & Elast & Ets).
  cbn [app] in Ed. subst data.
  cbn [isTracking batteryLevel isConnected sensorData currentReading fst snd].
  split; [reflexivity |]. split; [reflexivity |]. split; [reflexivity |].
  split; [exact El |]. split.
  - f_equal. rewrite <- Elast.
    destruct pushed as [| p pushed]; [discriminate |].
    rewrite !last_cons. reflexivity.
  - rewrite Ets. apply map_ext. intros j.
    rewrite Z.add_0_l. reflexivity.
Qed.

Lemma tick_shape (random : nat -> Q) now st k st' k' :
  tick random now st k = Normal (st', k') ->
  exists newReading,
    sensorData st' = appendReading (sensorData st) newReading /\
    currentReading st' = Some newReading /\
    batteryLevel st' = Qmax 0 (batteryLevel st - 0.1) /\
    isTracking st' = isTracking st /\
    isConnected st' = isConnected st.
Proof.
  unfold tick. intros H. apply bind_Normal in H.
  destruct H as (r & k1 & _ & H). injection H as <- _.
  exists r. repeat split; reflexivity.
Qed.

Lemma last_snoc {A} (l : list A) (a d : A) : List.last (l ++ [a]) d = a.
Proof. apply last_last. Qed.

(** The shape of every reachable state. *)
Lemma reachable_shape (random : nat -> Q) (st : AppState) (k : nat) :
  reachable random st k ->
  (50 <= List.length (sensorData st) <= 101)%nat /\
  exists older newest,
    sensorData st = older ++ [newest] /\
    currentReading st = Some newest.
Proof.
  intros H.
  induction H as [now st k Hinit | now st k st' k' Hreach IH _ Htick
                 | st k Hreach IH].
  - apply initialize_shape in Hinit.
    destruct Hinit as (_ & _ & _ & Hlen & Hcur & _).
    split; [lia |].
    destruct (snoc_case (sensorData st)) as [E | (older & newest & E)].
    + rewrite E in Hlen. discriminate.
    + exists older, newest. split; [exact E |].
      rewrite Hcur, E, last_snoc. reflexivity.
  - apply tick_shape in Htick. destruct Htick as (r & Hd & Hc & _).
    split.
    + rewrite Hd, appendReading_length. lia.
    + exists (slice_last 100 (sensorData st)), r.
      split; [exact Hd | exact Hc].
  - exact IH.
Qed.

(** X8: once mounted the dashboard always retains between 50 and 101
    samples. *)
Theorem reachable_history_length :
  forall (random : nat -> Q) (st : AppState) (k : nat),
    reachable random st k ->
    (50 <= List.length (sensorData st) <= 101)%nat.
Proof.
  intros random st k H. apply (reachable_shape random st k H).
Qed.

Lemma reachable_history_length_witness :
  exists st,
    reachable midpoint st 204%nat /\
    (50 <= List.length (sensorData st) <= 101)%nat.
Proof.
  eexists. split.
  - apply (reach_mount midpoint 0%Z). vm_compute. reflexivity.
  - apply (reachable_history_length midpoint _ 204%nat).
    apply (reach_mount midpoint 0%Z). vm_compute. reflexivity.
Defined.

(** X9: once mounted the current reading is always the newest retained
    sample, the last element of the history. *)
Theorem reachable_current_is_newest :
  forall (random : nat -> Q) (st : AppState) (k : nat),
    reachable random st k ->
    exists older newest,
      sensorData st = older ++ [newest] /\
      currentReading st = Some newest.
Proof.
  intros random st k H. apply (reachable_shape random st k H).
Qed.

Lemma reachable_current_is_newest_witness :
  exists st older newest,
    reachable midpoint st 204%nat /\
    sensorData st = older ++ [newest] /\
    currentReading st = Some newest.
Proof.
  assert (R : exists st, reachable midpoint st 204%nat).
  { eexists. apply (reach_mount midpoint 0%Z). vm_compute. reflexivity. }
  destruct R as (st & R).
  destruct (reachable_current_is_newest midpoint st 204%nat R)
    as (older & newest & E & C).
  exists st, older, newest. split; [exact R |]. split; assumption.
Defined.

(** X10: the history built on mount is stamped 30 seconds apart, from 25
    minutes before the mount instant to 30 seconds before it: the [j]-th
    sample (from 0) carries [now - (50 - j) * 30000]. *)
Theorem initialize_timestamps :
  forall (random : nat -> Q) (now : Z) (st : AppState) (k : nat),
  exists st',
    initialize random now st k = Normal (st', (204 + k)%nat) /\
    map SensorData.timestamp (sensorData st')
      = map (fun j => (now - (50 - Z.of_nat j) * 30000)%Z) (seq 0 50).
Proof.
  intros random now st k.
  destruct (initialize_run random (fun _ => True)
              (generateSensorData_total random) now st k)
    as (st' & Hrun & _).
  exists st'. split; [exact Hrun |].
  apply initialize_shape in Hrun.
  destruct Hrun as (_ & _ & _ & _ & _ & Hts). exact Hts.
Qed.

(** ** Battery *)

Lemma drain_bounds (b : Q) :
  0 <= b -> b <= 85 ->
  0 <= Qmax 0 (b - 0.1) /\ Qmax 0 (b - 0.1) <= 85 /\ Qmax 0 (b - 0.1) <= b.
Proof.
  intros H0 H1.
  destruct (Q.max_spec 0 (b - 0.1)) as [[L E] | [L E]]; rewrite E;
    repeat split; lra.
Qed.

(** X11: the battery level shown is always between 0 and 85: it starts at
    85, the bootstrap leaves it alone and a tick never takes it below 0. *)
Theorem reachable_battery_range :
  forall (random : nat -> Q) (st : AppState) (k : nat),
    reachable random st k ->
    0 <= batteryLevel st /\ batteryLevel st <= 85.
Proof.
  intros random st k H.
  induction H as [now st k Hinit | now st k st' k' Hreach IH _ Htick
                 | st k Hreach IH].
  - apply initialize_shape in Hinit.
    destruct Hinit as (_ & Hb & _). rewrite Hb.
    split; discriminate.
  - apply tick_shape in Htick. destruct Htick as (r & _ & _ & Hb & _).
    rewrite Hb. destruct IH as [H0 H1].
    destruct (drain_bounds (batteryLevel st) H0 H1) as (? & ? & ?).
    split; assumption.
  - exact IH.
Qed.

Lemma reachable_battery_range_witness :
  exists st,
    reachable midpoint st 204%nat /\
    0 <= batteryLevel st /\ batteryLevel st <= 85.
Proof.
  eexists. split.
  - apply (reach_mount midpoint 0%Z). vm_compute. reflexivity.
  - apply (reachable_battery_range midpoint _ 204%nat).
    apply (reach_mount midpoint 0%Z). vm_compute. reflexivity.
Defined.

Lemma reachable_battery_nonneg (random : nat -> Q) (st : AppState) (k : nat) :
  reachable random st k -> 0 <= batteryLevel st.
Proof.
  intros H.
  induction H as [now st k Hinit | now st k st' k' Hreach IH _ Htick
                 | st k Hreach IH].
  - apply initialize_shape in Hinit.
    destruct Hinit as (_ & Hb & _). rewrite Hb. discriminate.
  - apply tick_shape in Htick. destruct Htick as (r & _ & _ & Hb & _).
    rewrite Hb. apply Q.le_max_l.
  - exact IH.
Qed.

(** X12: while the dashboard is tracking, [n] firings of the interval
    callback always succeed and use [4 n] draws; the state they lead to
    is again a tracking state of the dashboard, and its battery level is
    not above the level before and not below 0. *)
Theorem ticks_battery_never_rises :
  forall (random : nat -> Q) (n : nat) (now : Z) (st : AppState) (k : nat),
    reachable random st k ->
    isTracking st = true ->
    exists st',
      ticks random n now st k = Normal (st', (4 * n + k)%nat) /\
      reachable random st' (4 * n + k)%nat /\
      isTracking st' = true /\
      0 <= batteryLevel st' /\ batteryLevel st' <= batteryLevel st.
Proof.
  intros random n. induction n as [| n IH]; intros now st k Hreach Htr.
  - exists st. split; [reflexivity |]. split; [exact Hreach |].
    split; [exact Htr |].
    split; [apply (reachable_battery_nonneg random st k Hreach) | lra].
  - destruct (tick_run random (fun _ => True)
                (generateSensorData_total random) now st k)
      as (st1 & Hrun & _); [apply Forall_forall; intros; exact I |].
    pose proof (tick_shape random now st k st1 _ Hrun)
      as (r & _ & _ & Hb1 & Htr1 & _).
    pose proof (reachable_battery_nonneg random st k Hreach) as Hb.
    assert (Hreach1 : reachable random st1 (S (S (S (S k))))).
    { apply (reach_tick random now st k st1 _ Hreach Htr Hrun). }
    assert (Htr1' : isTracking st1 = true) by (rewrite Htr1; exact Htr).
    destruct (IH now st1 (S (S (S (S k)))) Hreach1 Htr1')
      as (st' & Hrest & Hreach' & Htr' & Hlo & Hhi).
    replace (4 * S n + k)%nat with (4 * n + S (S (S (S k))))%nat by lia.
    exists st'. split.
    + cbn [ticks]. unfold bind at 1. rewrite Hrun, Hrest. reflexivity.
    + split; [exact Hreach' |]. split; [exact Htr' |].
      split; [exact Hlo |].
      rewrite Hb1 in Hhi.
      destruct (Q.max_spec 0 (batteryLevel st - 0.1)) as [[L E] | [L E]];
        rewrite E in Hhi; lra.
Qed.

Lemma ticks_battery_never_rises_witness :
  exists st0 st',
    initialize midpoint 0%Z initialState 0%nat = Normal (st0, 204%nat) /\
    ticks midpoint 3 0%Z (toggleTracking st0) 204%nat
      = Normal (st', (4 * 3 + 204)%nat) /\
    reachable midpoint st' (4 * 3 + 204)%nat /\
    isTracking st' = true /\
    0 <= batteryLevel st' /\
    batteryLevel st' <= batteryLevel (toggleTracking st0).
Proof.
  destruct (initialize_run midpoint (fun _ => True)
              (generateSensorData_total midpoint) 0%Z initialState 0%nat)
    as (st0 & Hrun & Htr & _).
  exists st0.
  destruct (ticks_battery_never_rises midpoint 3 0%Z (toggleTracking st0)
              204%nat
              (reach_toggle midpoint st0 204%nat
                 (reach_mount midpoint 0%Z st0 204%nat Hrun))
              (f_equal negb Htr))
    as (st' & H).
  exists st'. split; [exact Hrun | exact H].
Defined.

(** ** Averages *)

Lemma num_length_cons {A} (x : A) (l : list A) :
  num_length (x :: l) == num_length l + 1.
Proof.
  unfold num_length. cbn [List.length].
  rewrite Nat2Z.inj_succ. unfold Z.succ. rewrite inject_Z_plus. reflexivity.
Qed.

Lemma num_length_pos {A} (l : list A) : l <> [] -> 0 < num_length l.
Proof.
  intros H. unfold num_length. change 0 with (inject_Z 0).
  rewrite <- Zlt_Qlt. destruct l; [congruence | simpl; lia].
Qed.

Lemma sum_between (f : SensorData.t -> Q) (lo hi : Q) (h : list SensorData.t) :
  Forall (fun s => lo <= f s /\ f s <= hi) h ->
  forall acc,
    acc + lo * num_length h <= fold_left (fun sum d => sum + f d) h acc /\
    fold_left (fun sum d => sum + f d) h acc <= acc + hi * num_length h.
Proof.
  induction 1 as [| s h [Hlo Hhi] _ IH]; intros acc.
  - cbn [fold_left]. change (num_length (@nil SensorData.t)) with 0.
    split; lra.
  - cbn [fold_left]. destruct (IH (acc + f s)) as [IH1 IH2].
    rewrite num_length_cons.
    set (N := num_length h) in *. clearbody N.
    set (F := fold_left (fun sum d => sum + f d) h (acc + f s)) in *.
    clearbody F.
    split; lra.
Qed.

Lemma num_div_mean (f : SensorData.t -> Q) (lo hi : Q) (h : list SensorData.t) :
  h <> [] ->
  Forall (fun s => lo <= f s /\ f s <= hi) h ->
  exists a,
    num_div (fold_left (fun sum d => sum + f d) h 0) (num_length h) = Some a /\
    lo <= a /\ a <= hi.
Proof.
  intros Hne Hall.
  pose proof (num_length_pos h Hne) as Hpos.
  destruct (sum_between f lo hi h Hall 0) as [H1 H2].
  unfold num_div.
  destruct (Qeq_bool (num_length h) 0) eqn:E.
  - apply Qeq_bool_eq in E. rewrite E in Hpos. discriminate Hpos.
  - eexists. split; [reflexivity |]. split.
    + apply Qle_shift_div_l; [exact Hpos | lra].
    + apply Qle_shift_div_r; [exact Hpos | lra].
Qed.

Lemma num_div_length_None {A} (x : Q) (l : list A) :
  num_div x (num_length l) = None <-> l = [].
Proof.
  unfold num_div. split.
  - destruct l as [| a l]; [reflexivity |].
    destruct (Qeq_bool (num_length (a :: l)) 0) eqn:E; [| discriminate].
    apply Qeq_bool_eq in E.
    pose proof (num_length_pos (a :: l)) as Hpos.
    rewrite E in Hpos. intros _. exfalso.
    assert (Hf : 0 < 0) by (apply Hpos; discriminate).
    discriminate Hf.
  - intros ->. reflexivity.
Qed.

(** X13: the three channel averages and the average confidence are not a
    number exactly when the history is empty (the cells then read NaN). *)
Theorem averages_undefined_iff_empty :
  forall h : list SensorData.t,
    (avgHeartRate h = None <-> h = []) /\
    (avgEDA h = None <-> h = []) /\
    (avgTemp h = None <-> h = []) /\
    (avgConfidence h = None <-> h = []).
Proof.
  intros h. unfold avgHeartRate, avgEDA, avgTemp, avgConfidence.
  repeat split; try apply num_div_length_None; try (intros ->; reflexivity).
  intros H.
  destruct (num_div _ (num_length h)) eqn:E; [discriminate |].
  apply num_div_length_None in E. exact E.
Qed.

Lemma averages_nonempty_in_bounds (h : list SensorData.t) :
  h <> [] ->
  Forall in_bounds h ->
  exists a e t,
    avgHeartRate h = Some a /\ avgEDA h = Some e /\ avgTemp h = Some t /\
    triple_in_bounds a e t.
Proof.
  intros Hne Hall.
  destruct (num_div_mean SensorData.heartRate 50 120 h Hne) as (a & Ea & Ha).
  { eapply Forall_impl; [| exact Hall]. intros s (H & _). exact H. }
  destruct (num_div_mean SensorData.eda 2 15 h Hne) as (e & Ee & He).
  { eapply Forall_impl; [| exact Hall]. intros s (_ & H & _). exact H. }
  destruct (num_div_mean SensorData.temperature 35.5 38.5 h Hne)
    as (t & Et & Ht).
  { eapply Forall_impl; [| exact Hall]. intros s (_ & _ & H). exact H. }
  exists a, e, t. unfold triple_in_bounds. repeat split; tauto.
Qed.

(** X14: over a non-empty history whose samples are within the channel
    bounds, each average is a number within the bounds of its channel. *)
Theorem averages_in_bounds :
  forall h : list SensorData.t,
    h <> [] ->
    Forall in_bounds h ->
    exists a e t,
      avgHeartRate h = Some a /\ avgEDA h = Some e /\ avgTemp h = Some t /\
      triple_in_bounds a e t.
Proof.
  intros h Hne Hall. apply averages_nonempty_in_bounds; assumption.
Qed.

Lemma averages_in_bounds_witness :
  exists a e t,
    avgHeartRate [reading 0 "calm"; reading 1 "stressed"] = Some a /\
    avgEDA [reading 0 "calm"; reading 1 "stressed"] = Some e /\
    avgTemp [reading 0 "calm"; reading 1 "stressed"] = Some t /\
    triple_in_bounds a e t.
Proof.
  apply (averages_in_bounds [reading 0 "calm"; reading 1 "stressed"]).
  - discriminate.
  - repeat (apply Forall_cons;
            [unfold in_bounds, Qle; simpl; repeat split; lia |]).
    apply Forall_nil.
Defined.

(** ** The radar chart *)

Lemma num_or_nonzero (v d : Q) : 0 < v -> num_or (Some v) d = v.
Proof.
  intros H. unfold num_or. destruct (Qeq_bool v 0) eqn:E; [| reflexivity].
  apply Qeq_bool_eq in E. rewrite E in H. discriminate H.
Qed.

(** X15: once mounted, the radar chart plots for heart rate and EDA a
    current value and an average between the channel minimum and the
    [fullMark] (120 and 15); for temperature both values are ten times a
    temperature within bounds, between 355 and 385, so they can pass the
    [fullMark] of 380. *)
Theorem reachable_radarData :
  forall (random : nat -> Q) (st : AppState) (k : nat),
    reachable random st k ->
    exists c1 a1 c2 a2 c3 a3,
      radarData (sensorData st) (currentReading st)
      = [ RadarDatum.mk "Heart Rate" c1 (Some a1) 120;
          RadarDatum.mk "EDA" c2 (Some a2) 15;
          RadarDatum.mk "Temperature" c3 (Some a3) 380 ] /\
      (50 <= c1 /\ c1 <= 120) /\ (50 <= a1 /\ a1 <= 120) /\
      (2 <= c2 /\ c2 <= 15) /\ (2 <= a2 /\ a2 <= 15) /\
      (355 <= c3 /\ c3 <= 385) /\ (355 <= a3 /\ a3 <= 385).
Proof.
  intros random st k H.
  destruct (reachable_invariant random in_bounds
              (generateSensorData_in_bounds random) st k H) as [Hall Hcur].
  destruct (reachable_shape random st k H)
    as (Hlen & older & newest & Ehist & Ecur).
  specialize (Hcur newest Ecur).
  assert (Hne : sensorData st <> []).
  { intros E. rewrite E in Hlen. simpl in Hlen. lia. }
  destruct (averages_nonempty_in_bounds (sensorData st) Hne Hall)
    as (a & e & t & Ea & Ee & Et & (Ha & He & Ht)).
  destruct Hcur as (Hc1 & Hc2 & Hc3).
  exists (SensorData.heartRate newest), a,
         (SensorData.eda newest), e,
         (SensorData.temperature newest * 10), (t * 10).
  split.
  - unfold radarData. rewrite Ecur, Ea, Ee, Et. cbn [option_map].
    rewrite !num_or_nonzero by lra. reflexivity.
  - repeat split; lra.
Qed.

Lemma reachable_radarData_witness :
  exists st c1 a1 c2 a2 c3 a3,
    reachable midpoint st 204%nat /\
    radarData (sensorData st) (currentReading st)
    = [ RadarDatum.mk "Heart Rate" c1 (Some a1) 120;
        RadarDatum.mk "EDA" c2 (Some a2) 15;
        RadarDatum.mk "Temperature" c3 (Some a3) 380 ] /\
    (50 <= c1 /\ c1 <= 120) /\ (50 <= a1 /\ a1 <= 120) /\
    (2 <= c2 /\ c2 <= 15) /\ (2 <= a2 /\ a2 <= 15) /\
    (355 <= c3 /\ c3 <= 385) /\ (355 <= a3 /\ a3 <= 385).
Proof.
  assert (R : exists st, reachable midpoint st 204%nat).
  { eexists. apply (reach_mount midpoint 0%Z). vm_compute. reflexivity. }
  destruct R as (st & R).
  destruct (reachable_radarData midpoint st 204%nat R)
    as (c1 & a1 & c2 & a2 & c3 & a3 & E & B).
  exists st, c1, a1, c2, a2, c3, a3. split; [exact R |]. split; assumption.
Defined.

(** ** Status badges *)

Lemma num_lt_true (a b : Q) : num_lt a b = true <-> a < b.
Proof. unfold num_lt. apply (gt_true b a). Qed.

Lemma num_lt_false (a b : Q) : num_lt a b = false <-> b <= a.
Proof. unfold num_lt. apply (gt_false b a). Qed.

(** A badge built from a value [v || 0] and two thresholds: the variant
    and the text agree, and they follow the value [v] itself. *)
Lemma badge_cases (v hi lo : Q) (variantHigh variantLow variantNormal
                                 textHigh textLow textNormal : string) :
  0 < lo -> lo <= hi ->
  let value := num_or (Some v) 0 in
  let variant := if gt value hi then variantHigh
                 else if num_lt value lo then variantLow else variantNormal in
  let text := if gt value hi then textHigh
              else if num_lt value lo then textLow else textNormal in
  (hi < v /\ variant = variantHigh /\ text = textHigh) \/
  (v < lo /\ variant = variantLow /\ text = textLow) \/
  (lo <= v /\ v <= hi /\ variant = variantNormal /\ text = textNormal).
Proof.
  intros Hlo Hle value variant text.
  assert (Hv : value == v) by apply num_or_zero.
  subst variant text.
  destruct (gt value hi) eqn:E1.
  - apply gt_true in E1. left. split; [lra | split; reflexivity].
  - apply gt_false in E1. destruct (num_lt value lo) eqn:E2.
    + apply num_lt_true in E2. right. left.
      split; [lra | split; reflexivity].
    + apply num_lt_false in E2. right. right.
      split; [lra |]. split; [lra | split; reflexivity].
Qed.

(** X16: on each of the three status cards the colour of the badge and its
    text always agree, and with a reading present they follow its value:
    heart rate above 100 is High/destructive, below 60 Low/secondary,
    otherwise Normal/default; EDA uses 10 and 3, temperature 37.5 and 36.
    Without a reading all three badges read Low. *)
Theorem status_badges :
  (forall s : SensorData.t,
     ((100 < SensorData.heartRate s /\
       heartRateVariant (Some s) = "destructive" /\
       heartRateStatus (Some s) = "High") \/
      (SensorData.heartRate s < 60 /\
       heartRateVariant (Some s) = "secondary" /\
       heartRateStatus (Some s) = "Low") \/
      (60 <= SensorData.heartRate s /\ SensorData.heartRate s <= 100 /\
       heartRateVariant (Some s) = "default" /\
       heartRateStatus (Some s) = "Normal")) /\
     ((10 < SensorData.eda s /\
       edaVariant (Some s) = "destructive" /\
       edaStatus (Some s) = "High Arousal") \/
      (SensorData.eda s < 3 /\
       edaVariant (Some s) = "secondary" /\
       edaStatus (Some s) = "Low Arousal") \/
      (3 <= SensorData.eda s /\ SensorData.eda s <= 10 /\
       edaVariant (Some s) = "default" /\
       edaStatus (Some s) = "Normal")) /\
     ((37.5 < SensorData.temperature s /\
       temperatureVariant (Some s) = "destructive" /\
       temperatureStatus (Some s) = "High") \/
      (SensorData.temperature s < 36 /\
       temperatureVariant (Some s) = "secondary" /\
       temperatureStatus (Some s) = "Low") \/
      (36 <= SensorData.temperature s /\ SensorData.temperature s <= 37.5 /\
       temperatureVariant (Some s) = "default" /\
       temperatureStatus (Some s) = "Normal"))) /\
  (heartRateVariant None = "secondary" /\ heartRateStatus None = "Low" /\
   edaVariant None = "secondary" /\ edaStatus None = "Low Arousal" /\
   temperatureVariant None = "secondary" /\ temperatureStatus None = "Low").
Proof.
  split.
  - intros s. split; [| split].
    + apply (badge_cases (SensorData.heartRate s) 100 60); reflexivity || discriminate.
    + apply (badge_cases (SensorData.eda s) 10 3); reflexivity || discriminate.
    + apply (badge_cases (SensorData.temperature s) 37.5 36);
        reflexivity || discriminate.
  - repeat split; reflexivity.
Qed.

(** ** The emotion card *)

Lemma generateSensorData_labelled (random : nat -> Q)
  (prevData : option SensorData.t) (now : Z) (k : nat) :
  exists s,
    generateSensorData random prevData now k = Normal (s, S (S (S (S k)))) /\
    forall ts, (fun r => In (SensorData.emotion r) labels) (set_timestamp s ts).
Proof.
  destruct (generateSensorData_run random prevData now k)
    as (hr & ed & te & c & _ & _ & _ & _ & Hin & _ & Hrun).
  eexists. split; [exact Hrun |]. intros ts. exact Hin.
Qed.

(** X17: the emotion card never looks at an undefined entry: before the
    mount effect has run it shows the neutral entry of [EMOTIONS], and in
    every state reached afterwards the label of the current reading is a
    key of [EMOTIONS], so the entry is defined. *)
Theorem currentEmotion_defined :
  forall (random : nat -> Q) (st : AppState) (k : nat),
    st = initialState \/ reachable random st k ->
    exists key e,
      In key labels /\
      get EMOTIONS key = Some e /\
      currentEmotion (currentReading st) = Some e /\
      (st = initialState -> key = "neutral").
Proof.
  intros random st k [-> | H].
  - exists "neutral". eexists.
    split; [simpl; auto 10 |]. split; [reflexivity |].
    split; [reflexivity | reflexivity].
  - destruct (reachable_invariant random
                (fun r => In (SensorData.emotion r) labels)
                (generateSensorData_labelled random) st k H) as [_ Hcur].
    destruct (reachable_shape random st k H) as (_ & older & newest & _ & Ecur).
    specialize (Hcur newest Ecur). cbv beta in Hcur.
    destruct (labels_in_table _ Hcur) as (e & Hget & _).
    exists (SensorData.emotion newest), e.
    split; [exact Hcur |]. split; [exact Hget |].
    split; [rewrite Ecur; exact Hget |].
    intros ->. discriminate Ecur.
Qed.

Lemma currentEmotion_defined_witness :
  exists key e,
    In key labels /\
    get EMOTIONS key = Some e /\
    currentEmotion (currentReading initialState) = Some e /\
    (initialState = initialState -> key = "neutral").
Proof.
  apply (currentEmotion_defined midpoint initialState 0%nat).
  left. reflexivity.
Defined.

(** ** Chart data and the session summary *)

(** X18: the real-time charts plot the newest 20 retained samples (all of
    them when there are fewer) in chronological order, each point with
    the four numbers of its sample and the formatted time of its
    timestamp. *)
Theorem recentData_newest :
  forall (toLocaleTimeString : Z -> string) (h : list SensorData.t),
  exists older newest,
    h = older ++ newest /\
    List.length newest = Nat.min 20 (List.length h) /\
    map ChartPoint.time (recentData toLocaleTimeString h)
      = map (fun s => toLocaleTimeString (SensorData.timestamp s)) newest /\
    map ChartPoint.heartRate (recentData toLocaleTimeString h)
      = map SensorData.heartRate newest /\
    map ChartPoint.eda (recentData toLocaleTimeString h)
      = map SensorData.eda newest /\
    map ChartPoint.temperature (recentData toLocaleTimeString h)
      = map SensorData.temperature newest /\
    map ChartPoint.confidence (recentData toLocaleTimeString h)
      = map SensorData.confidence newest.
Proof.
  intros f h.
  exists (firstn (List.length h - 20) h), (skipn (List.length h - 20) h).
  split; [symmetry; apply firstn_skipn |].
  split; [rewrite length_skipn; lia |].
  unfold recentData, slice_last. rewrite !map_map.
  repeat split; reflexivity.
Qed.

(** X19: the "Duration" cell shows half the number of retained samples,
    rounded down (30 seconds per sample, in minutes). *)
Theorem durationMinutes_half :
  forall h : list SensorData.t,
    durationMinutes h = (Z.of_nat (List.length h) / 2)%Z.
Proof.
  intros h. unfold durationMinutes, num_length.
  set (n := Z.of_nat (List.length h)).
  rewrite (Zdiv_Qdiv n 2). apply Qfloor_comp.
  change (inject_Z 2) with 2. field.
Qed.

(** ** Confidence over the session *)

Lemma generateSensorData_confidence (random : nat -> Q) :
  (forall n, 0 <= random n /\ random n < 1) ->
  forall prevData now k,
  exists s,
    generateSensorData random prevData now k = Normal (s, S (S (S (S k)))) /\
    forall ts,
      (fun r => 94 <= SensorData.confidence r /\ SensorData.confidence r <= 100)
        (set_timestamp s ts).
Proof.
  intros Hrange prevData now k.
  destruct (generateSensorData_run random prevData now k)
    as (hr & ed & te & c & _ & _ & _ & _ & _ & Hconf & Hrun).
  destruct (Hrange (S (S (S k)))) as [H0 H1].
  destruct (confidence_range (random (S (S (S k)))) H0 H1) as (_ & Hlo & Hhi).
  eexists. split; [exact Hrun |].
  intros ts. cbn [set_timestamp SensorData.confidence]. rewrite Hconf.
  apply (toFixed_within 1 94 100 _ 940 1000);
    [reflexivity | reflexivity | lia | exact Hlo | apply Q.le_min_r].
Qed.

(** X20: with draws in [0, 1), once mounted every retained confidence lies
    in [94, 100] and the "Avg Confidence" cell shows a number in
    [94, 100]. *)
Theorem reachable_avgConfidence :
  forall random : nat -> Q,
    (forall n, 0 <= random n /\ random n < 1) ->
    forall (st : AppState) (k : nat),
      reachable random st k ->
      Forall (fun s => 94 <= SensorData.confidence s /\
                       SensorData.confidence s <= 100) (sensorData st) /\
      exists a,
        avgConfidence (sensorData st) = Some a /\ 94 <= a /\ a <= 100.
Proof.
  intros random Hrange st k H.
  destruct (reachable_invariant random _
              (generateSensorData_confidence random Hrange) st k H)
    as [Hall _].
  split; [exact Hall |].
  destruct (reachable_shape random st k H) as (Hlen & _).
  assert (Hne : sensorData st <> []).
  { intros E. rewrite E in Hlen. simpl in Hlen. lia. }
  destruct (num_div_mean SensorData.confidence 94 100 (sensorData st) Hne Hall)
    as (m & Em & Hlo & Hhi).
  exists (toFixed 1 m). unfold avgConfidence. rewrite Em.
  split; [reflexivity |].
  apply (toFixed_within 1 94 100 m 940 1000);
    [reflexivity | reflexivity | lia | exact Hlo | exact Hhi].
Qed.

Lemma reachable_avgConfidence_witness :
  exists st a,
    reachable midpoint st 204%nat /\
    avgConfidence (sensorData st) = Some a /\ 94 <= a /\ a <= 100.
Proof.
  assert (R : exists st, reachable midpoint st 204%nat).
  { eexists. apply (reach_mount midpoint 0%Z). vm_compute. reflexivity. }
  destruct R as (st & R).
  destruct (reachable_avgConfidence midpoint
              (fun n => conj (Qle_bool_imp_le 0 (midpoint n) eq_refl)
                             (eq_refl : midpoint n < 1))
              st 204%nat R) as (_ & a & E & B).
  exists st, a. split; [exact R |]. split; assumption.
Defined.

(** ** The random walk *)

Lemma toFixed_error (d : nat) (x : Q) :
  0 <= x ->
  - 0.5 <= (toFixed d x - x) * inject_Z (10 ^ Z.of_nat d) /\
  (toFixed d x - x) * inject_Z (10 ^ Z.of_nat d) <= 0.5.
Proof.
  intros Hx.
  destruct (toFixed_nearest d x Hx) as (n & E & H1 & H2).
  rewrite E, (Qmake_pow10 n d).
  pose proof (pow10_pos d) as Hp.
  set (p := (10 ^ Z.of_nat d)%Z) in *.
  assert (HpQ : 0 < inject_Z p).
  { change 0 with (inject_Z 0). rewrite <- Zlt_Qlt. exact Hp. }
  assert (Hnz : ~ inject_Z p == 0).
  { intros E0. rewrite E0 in HpQ. exact (Qlt_irrefl 0 HpQ). }
  setoid_replace ((inject_Z n / inject_Z p - x) * inject_Z p)
    with (inject_Z n - x * inject_Z p) by (field; exact Hnz).
  set (N := inject_Z n) in *. clearbody N.
  set (X := x * inject_Z p) in *. clearbody X.
  split; lra.
Qed.

Lemma clamp_step (lo hi p delta : Q) :
  lo <= p -> p <= hi ->
  - Qabs delta <= Qmax lo (Qmin hi (p + delta)) - p /\
  Qmax lo (Qmin hi (p + delta)) - p <= Qabs delta.
Proof.
  intros Hlo Hhi.
  destruct (Qabs_bounds delta) as (B1 & B2 & _).
  set (D := Qabs delta) in *. clearbody D.
  destruct (Q.min_spec hi (p + delta)) as [[L1 E1] | [L1 E1]]; rewrite E1;
    [destruct (Q.max_spec lo hi) as [[L2 E2] | [L2 E2]]
    | destruct (Q.max_spec lo (p + delta)) as [[L2 E2] | [L2 E2]]];
    rewrite E2; split; lra.
Qed.

Lemma generateSensorData_one_step (random : nat -> Q) (prev : SensorData.t)
  (now : Z) (k : nat) :
  in_bounds prev ->
  (0 <= random k /\ random k < 1) ->
  (0 <= random (S k) /\ random (S k) < 1) ->
  (0 <= random (S (S k)) /\ random (S (S k)) < 1) ->
  exists s,
    generateSensorData random (Some prev) now k
      = Normal (s, S (S (S (S k)))) /\
    Qabs (SensorData.heartRate s - SensorData.heartRate prev) <= 4.05 /\
    Qabs (SensorData.eda s - SensorData.eda prev) <= 1.005 /\
    Qabs (SensorData.temperature s - SensorData.temperature prev) <= 0.25.
Proof.
  intros (Bh & Be & Bt) R1 R2 R3.
  destruct (generateSensorData_run random (Some prev) now k)
    as (hr & ed & te & c & Ehr & Eed & Ete & _ & _ & _ & Hrun).
  eexists. split; [exact Hrun |].
  cbn [SensorData.heartRate SensorData.eda SensorData.temperature].
  cbn [option_map] in Ehr, Eed, Ete.
  rewrite num_or_nonzero in Ehr by lra.
  rewrite num_or_nonzero in Eed by lra.
  rewrite num_or_nonzero in Ete by lra.
  split; [| split].
  - destruct (clamp_step 50 120 (SensorData.heartRate prev)
                ((random k - 0.5) * 8)) as [S1 S2]; [lra | lra |].
    rewrite <- Ehr in S1, S2.
    destruct (Qabs_bounds ((random k - 0.5) * 8)) as (_ & _ & [A | A]);
      rewrite A in S1, S2;
      (assert (H0 : 0 <= hr)
         by (rewrite Ehr; apply Qle_trans with 50;
             [discriminate | apply Q.le_max_l]));
      destruct (toFixed_error 1 hr H0) as [T1 T2];
      change (inject_Z (10 ^ Z.of_nat 1)) with 10 in T1, T2;
      apply Qabs_case; intros _; lra.
  - destruct (clamp_step 2 15 (SensorData.eda prev)
                ((random (S k) - 0.5) * 2)) as [S1 S2]; [lra | lra |].
    rewrite <- Eed in S1, S2.
    destruct (Qabs_bounds ((random (S k) - 0.5) * 2)) as (_ & _ & [A | A]);
      rewrite A in S1, S2;
      (assert (H0 : 0 <= ed)
         by (rewrite Eed; apply Qle_trans with 2;
             [discriminate | apply Q.le_max_l]));
      destruct (toFixed_error 2 ed H0) as [T1 T2];
      change (inject_Z (10 ^ Z.of_nat 2)) with 100 in T1, T2;
      apply Qabs_case; intros _; lra.
  - destruct (clamp_step 35.5 38.5 (SensorData.temperature prev)
                ((random (S (S k)) - 0.5) * 0.4)) as [S1 S2]; [lra | lra |].
    rewrite <- Ete in S1, S2.
    destruct (Qabs_bounds ((random (S (S k)) - 0.5) * 0.4)) as (_ & _ & [A | A]);
      rewrite A in S1, S2;
      (assert (H0 : 0 <= te)
         by (rewrite Ete; apply Qle_trans with 35.5;
             [discriminate | apply Q.le_max_l]));
      destruct (toFixed_error 1 te H0) as [T1 T2];
      change (inject_Z (10 ^ Z.of_nat 1)) with 10 in T1, T2;
      apply Qabs_case; intros _; lra.
Qed.

(** X21: from a previous sample within the channel bounds and draws in
    [0, 1), one call of the simulator moves the stored heart rate by at
    most 4.05, the EDA by at most 1.005 and the temperature by at most
    0.25 (half the channel's delta plus half a rounding step). *)
Theorem generateSensorData_step_bounded :
  forall (random : nat -> Q) (prev : SensorData.t) (now : Z) (k : nat),
    in_bounds prev ->
    (0 <= random k /\ random k < 1) ->
    (0 <= random (S k) /\ random (S k) < 1) ->
    (0 <= random (S (S k)) /\ random (S (S k)) < 1) ->
    exists s,
      generateSensorData random (Some prev) now k
        = Normal (s, S (S (S (S k)))) /\
      Qabs (SensorData.heartRate s - SensorData.heartRate prev) <= 4.05 /\
      Qabs (SensorData.eda s - SensorData.eda prev) <= 1.005 /\
      Qabs (SensorData.temperature s - SensorData.temperature prev) <= 0.25.
Proof.
  intros random prev now k. apply generateSensorData_one_step.
Qed.

Lemma generateSensorData_step_bounded_witness :
  exists s,
    generateSensorData midpoint (Some (reading 0 "calm")) 0%Z 0%nat
      = Normal (s, 4%nat) /\
    Qabs (SensorData.heartRate s - SensorData.heartRate (reading 0 "calm"))
      <= 4.05 /\
    Qabs (SensorData.eda s - SensorData.eda (reading 0 "calm")) <= 1.005 /\
    Qabs (SensorData.temperature s - SensorData.temperature (reading 0 "calm"))
      <= 0.25.
Proof.
  apply (generateSensorData_step_bounded midpoint (reading 0 "calm") 0%Z 0%nat).
  - unfold in_bounds, Qle; simpl; repeat split; lia.
  - split; [discriminate | reflexivity].
  - split; [discriminate | reflexivity].
  - split; [discriminate | reflexivity].
Defined.

(** X22: every stored channel has the fixed precision of its rounding: the
    heart rate, the temperature and the confidence are whole numbers of
    tenths, the EDA a whole number of hundredths. *)
Theorem generateSensorData_precision :
  forall (random : nat -> Q) (prevData : option SensorData.t) (now : Z)
         (k : nat),
  exists s (n1 n2 n3 n4 : Z),
    generateSensorData random prevData now k = Normal (s, S (S (S (S k)))) /\
    SensorData.heartRate s == n1 # 10 /\
    SensorData.eda s == n2 # 100 /\
    SensorData.temperature s == n3 # 10 /\
    SensorData.confidence s == n4 # 10.
Proof.
  intros random prevData now k.
  destruct (generateSensorData_run random prevData now k)
    as (hr & ed & te & c & _ & _ & _ & _ & _ & _ & Hrun).
  eexists. do 4 eexists. split; [exact Hrun |].
  cbn [SensorData.heartRate SensorData.eda SensorData.temperature
       SensorData.confidence].
  unfold toFixed.
  repeat split; rewrite Qred_correct; reflexivity.
Qed.

(** ** The retained history is a walk *)

Lemma smooth_snoc (h : list SensorData.t) (a b : SensorData.t) :
  smooth (h ++ [a]) -> one_step a b -> smooth ((h ++ [a]) ++ [b]).
Proof.
  intros Hs Hab. induction h as [| x h IH].
  - cbn [smooth app]. split; [exact Hab | exact I].
  - destruct h as [| y h].
    + cbn [smooth app] in Hs |- *. destruct Hs as [Hxa _].
      split; [exact Hxa |]. split; [exact Hab | exact I].
    + change (smooth (x :: (y :: h ++ [a]) ++ [b])).
      change (smooth (x :: y :: h ++ [a])) in Hs.
      cbn [smooth app] in Hs |- *. destruct Hs as [Hxy Hs].
      split; [exact Hxy |]. apply IH. exact Hs.
Qed.

Lemma smooth_tail (x : SensorData.t) (h : list SensorData.t) :
  smooth (x :: h) -> smooth h.
Proof.
  destruct h as [| y h]; [intros _; exact I |].
  intros [_ H]. exact H.
Qed.

Lemma smooth_skipn (n : nat) (h : list SensorData.t) :
  smooth h -> smooth (skipn n h).
Proof.
  revert h. induction n as [| n IH]; intros h H; [exact H |].
  destruct h as [| x h]; [exact I |].
  cbn [skipn]. apply IH. apply (smooth_tail x). exact H.
Qed.

Section Walk.

Variable random : nat -> Q.
Hypothesis random_range : forall n, 0 <= random n /\ random n < 1.

(** One call from a sample within bounds: the result is within bounds
    and one step away. *)
Lemma generateSensorData_walk (prev : SensorData.t) (now : Z) (k : nat) :
  in_bounds prev ->
  exists s,
    generateSensorData random (Some prev) now k
      = Normal (s, S (S (S (S k)))) /\
    forall ts, in_bounds (set_timestamp s ts) /\
               one_step prev (set_timestamp s ts).
Proof.
  intros Hb.
  destruct (generateSensorData_in_bounds random (Some prev) now k)
    as (s & Hrun & Hin).
  destruct (generateSensorData_one_step random prev now k Hb
              (random_range k) (random_range (S k)) (random_range (S (S k))))
    as (s' & Hrun' & Hstep).
  rewrite Hrun in Hrun'. injection Hrun' as <-.
  exists s. split; [exact Hrun |].
  intros ts. split; [apply Hin | exact Hstep].
Qed.

Lemma initLoop_walk (n : nat) :
  forall (i now : Z) lastReading chain k,
    in_bounds lastReading ->
    smooth (chain ++ [lastReading]) ->
    exists pushed last,
      initLoop random n i now lastReading
        (skipn 1 (chain ++ [lastReading])) k
        = Normal ((skipn 1 (chain ++ [lastReading]) ++ pushed, last),
                  (4 * n + k)%nat) /\
      smooth ((chain ++ [lastReading]) ++ pushed).
Proof.
  induction n as [| n IH]; intros i now lastReading chain k Hb Hs.
  - exists [], lastReading. rewrite !app_nil_r. split; [reflexivity | exact Hs].
  - destruct (generateSensorData_walk lastReading now k Hb)
      as (s & Hrun & Hnext).
    set (r := set_timestamp s (now - (50 - i) * 30000)%Z).
    destruct (Hnext (now - (50 - i) * 30000)%Z) as [Hrb Hstep]. fold r in Hrb, Hstep.
    destruct (IH (i + 1)%Z now r (chain ++ [lastReading])
                (S (S (S (S k)))) Hrb (smooth_snoc _ _ _ Hs Hstep))
      as (pushed & last & Hloop & Hsm).
    exists (r :: pushed), last. split.
    + cbn [initLoop]. unfold bind at 1. rewrite Hrun. fold r.
      assert (E : skipn 1 (chain ++ [lastReading]) ++ [r]
                  = skipn 1 ((chain ++ [lastReading]) ++ [r])).
      { destruct chain; reflexivity. }
      rewrite E, Hloop. rewrite <- E, <- app_assoc.
      f_equal. f_equal. lia.
    + rewrite <- app_assoc in Hsm. exact Hsm.
Qed.

Lemma reachable_walk (st : AppState) (k : nat) :
  reachable random st k ->
  smooth (sensorData st).
Proof.
  intros H.
  induction H as [now st k Hinit | now st k st' k' Hreach IH _ Htick
                 | st k Hreach IH].
  - destruct (generateSensorData_in_bounds random None now 0%nat)
      as (first & Hfirst & Hfb).
    assert (Hb : in_bounds first).
    { specialize (Hfb (SensorData.timestamp first)).
      destruct first; exact Hfb. }
    destruct (initLoop_walk 50 0%Z now first [] 4%nat Hb I)
      as (pushed & last & Hloop & Hsm).
    cbn [app skipn] in Hloop.
    assert (E : initialize random now initialState 0%nat
                = Normal (mkApp (isTracking initialState) pushed (Some last)
                            (batteryLevel initialState)
                            (isConnected initialState),
                          (4 * 50 + 4)%nat)).
    { unfold initialize. unfold bind at 1. rewrite Hfirst.
      unfold bind at 1. rewrite Hloop. reflexivity. }
    rewrite E in Hinit. injection Hinit as <- _.
    cbn [sensorData]. apply (smooth_tail first). exact Hsm.
  - destruct (reachable_invariant random in_bounds
                (generateSensorData_in_bounds random) st k Hreach)
      as [_ Hcur].
    destruct (reachable_shape random st k Hreach)
      as (_ & older & newest & Ehist & Ecur).
    specialize (Hcur newest Ecur).
    destruct (generateSensorData_walk newest now k Hcur)
      as (s & Hrun & Hnext).
    unfold tick in Htick. unfold bind at 1 in Htick.
    rewrite Ecur, Hrun in Htick. injection Htick as <- _.
    cbn [sensorData]. unfold appendReading, slice_last.
    rewrite Ehist in IH |- *.
    assert (Esk : skipn (List.length (older ++ [newest]) - 100)
                    (older ++ [newest])
                  = skipn (List.length (older ++ [newest]) - 100) older
                    ++ [newest]).
    { rewrite skipn_app.
      replace (List.length (older ++ [newest]) - 100 - List.length older)%nat
        with 0%nat by (rewrite length_app; simpl; lia).
      reflexivity. }
    rewrite Esk. apply smooth_snoc.
    + rewrite <- Esk. apply smooth_skipn. exact IH.
    + specialize (Hnext (SensorData.timestamp s)).
      destruct s; exact (proj2 Hnext).
  - exact IH.
Qed.

End Walk.

(** X24: with draws in [0, 1), once mounted the retained history is a walk:
    every retained sample is within one step of the sample before it (at
    most 4.05 in heart rate, 1.005 in EDA and 0.25 in temperature). *)
Theorem reachable_history_smooth :
  forall random : nat -> Q,
    (forall n, 0 <= random n /\ random n < 1) ->
    forall (st : AppState) (k : nat),
      reachable random st k ->
      smooth (sensorData st).
Proof.
  intros random Hrange st k H. exact (reachable_walk random Hrange st k H).
Qed.

Lemma reachable_history_smooth_witness :
  exists st,
    reachable midpoint st 204%nat /\ smooth (sensorData st).
Proof.
  eexists. split.
  - apply (reach_mount midpoint 0%Z). vm_compute. reflexivity.
  - apply (reachable_history_smooth midpoint
             (fun n => conj (Qle_bool_imp_le 0 (midpoint n) eq_refl)
                            (eq_refl : midpoint n < 1))
             _ 204%nat).
    apply (reach_mount midpoint 0%Z). vm_compute. reflexivity.
Defined.

(** ** The dominant emotion after mount *)

Lemma dominantEmotion_in_history (h : list SensorData.t) :
  h <> [] ->
  exists l,
    dominantEmotion h = Normal l /\ In l (map SensorData.emotion h).
Proof.
  intros Hne.
  destruct (emotionCounts_counts h) as (_ & Hkeys & _ & _).
  assert (Hlen : (0 <? List.length h)%nat = true).
  { apply Nat.ltb_lt. destruct h; [congruence | simpl; lia]. }
  assert (Hne' : entries (emotionCounts h) <> []).
  { unfold entries. destruct h as [| s0 h']; [congruence |].
    intros E. specialize (Hkeys (SensorData.emotion s0)).
    rewrite E in Hkeys. simpl in Hkeys. tauto. }
  destruct (reduce_greater_last_max (entries (emotionCounts h)) Hne')
    as ([l c] & pre & post & Hred & Harr & _ & _).
  exists l. split.
  - unfold dominantEmotion. rewrite Hlen, Hred. reflexivity.
  - apply Hkeys. unfold entries in Harr. rewrite Harr, map_app.
    apply in_or_app. right. left. reflexivity.
Qed.

(** X25: once mounted the "Dominant Emotion" cell never throws and never
    shows "N/A": it shows the label of a retained sample, one of the
    five keys of [EMOTIONS]. *)
Theorem reachable_dominantEmotion :
  forall (random : nat -> Q) (st : AppState) (k : nat),
    reachable random st k ->
    exists l,
      dominantEmotion (sensorData st) = Normal l /\
      In l (map SensorData.emotion (sensorData st)) /\
      In l labels.
Proof.
  intros random st k H.
  destruct (reachable_shape random st k H) as (Hlen & _).
  assert (Hne : sensorData st <> []).
  { intros E. rewrite E in Hlen. simpl in Hlen. lia. }
  destruct (dominantEmotion_in_history (sensorData st) Hne) as (l & Hd & Hin).
  exists l. split; [exact Hd |]. split; [exact Hin |].
  destruct (reachable_invariant random
              (fun r => In (SensorData.emotion r) labels)
              (generateSensorData_labelled random) st k H) as [Hall _].
  apply in_map_iff in Hin. destruct Hin as (s & <- & Hs).
  rewrite Forall_forall in Hall. apply Hall. exact Hs.
Qed.

Lemma reachable_dominantEmotion_witness :
  exists st l,
    reachable midpoint st 204%nat /\
    dominantEmotion (sensorData st) = Normal l /\
    In l (map SensorData.emotion (sensorData st)) /\
    In l labels.
Proof.
  assert (R : exists st, reachable midpoint st 204%nat).
  { eexists. apply (reach_mount midpoint 0%Z). vm_compute. reflexivity. }
  destruct R as (st & R).
  destruct (reachable_dominantEmotion midpoint st 204%nat R) as (l & E).
  exists st, l. split; [exact R | exact E].
Defined.

(** ** Parsing what was serialised *)

Module JSONFacts.

Import JSON.

Lemma append_assoc (a b c : string) : ((a ++ b) ++ c = a ++ (b ++ c))%string.
Proof. induction a as [|x a IH]; simpl; [reflexivity | now rewrite IH]. Qed.

Lemma code_eqb (c c' : ascii) : code c <> code c' -> Ascii.eqb c c' = false.
Proof.
  intros H. apply Ascii.eqb_neq. intros E. apply H. now rewrite E.
Qed.

Lemma digit_char_spec (v : N) :
  (v < 10)%N ->
  code (digit_char v) = (48 + v)%N
  /\ is_digit (digit_char v) = true
  /\ digit_value (digit_char v) = v.
Proof.
  intros H.
  assert (E : code (digit_char v) = (48 + v)%N).
  { unfold code, digit_char. apply N_ascii_embedding. lia. }
  split; [exact E|]. unfold is_digit, digit_value. rewrite E. split; [|lia].
  apply andb_true_intro. split; apply N.leb_le; lia.
Qed.

Lemma parse_digits_stop (s : string) (acc : N) (count : nat) :
  ends_digits s = true -> parse_digits s acc count = (acc, count, s).
Proof.
  destruct s as [|c s]; simpl; [reflexivity|].
  intros H. apply negb_true_iff in H. now rewrite H.
Qed.

Lemma pow10_S (w : nat) : (10 ^ N.of_nat (S w) = 10 ^ N.of_nat w * 10)%N.
Proof. rewrite Nat2N.inj_succ, N.pow_succ_r'. lia. Qed.

Lemma pow10_N_pos (w : nat) : (0 < 10 ^ N.of_nat w)%N.
Proof. apply N.neq_0_lt_0, N.pow_nonzero. lia. Qed.

Lemma parse_digits_print (w : nat) :
  forall n rest acc count,
    parse_digits (print_width w n ++ rest) acc count
    = parse_digits rest (acc * 10 ^ N.of_nat w + n mod 10 ^ N.of_nat w)%N
        (count + w).
Proof.
  induction w as [|w IH]; intros n rest acc count.
  - simpl. rewrite N.mod_1_r, N.mul_1_r, N.add_0_r, Nat.add_0_r. reflexivity.
  - cbn [print_width append parse_digits].
    assert (Hd : ((n / 10 ^ N.of_nat w) mod 10 < 10)%N)
      by (apply N.mod_lt; lia).
    destruct (digit_char_spec _ Hd) as (_ & Hdig & Hval).
    rewrite Hdig, Hval, IH. f_equal; [|lia].
    rewrite pow10_S, N.Div0.mod_mul_r. lia.
Qed.

Lemma num_digits_fuel_spec (f : nat) :
  forall n, (n < 2 ^ N.of_nat f)%N ->
    let w := num_digits_fuel f n in
    (n < 10 ^ N.of_nat w)%N
    /\ (w = 1%nat \/ exists w', w = S w' /\ (10 ^ N.of_nat w' <= n)%N).
Proof.
  induction f as [|f IH]; intros n Hn; cbn [num_digits_fuel].
  - simpl in Hn. split; [simpl; lia | now left].
  - destruct (N.ltb_spec n 10) as [Hlt|Hge].
    + split; [simpl; lia | now left].
    + assert (Hn' : (n / 10 < 2 ^ N.of_nat f)%N).
      { rewrite Nat2N.inj_succ, N.pow_succ_r' in Hn.
        apply N.Div0.div_lt_upper_bound. lia. }
      destruct (IH _ Hn') as [Hup Hlow].
      set (w := num_digits_fuel f (n / 10)) in *.
      split.
      * rewrite pow10_S.
        pose proof (N.Div0.div_mod n 10) as E.
        pose proof (N.mod_lt n 10 ltac:(lia)). lia.
      * right. exists w. split; [reflexivity|].
        pose proof (N.Div0.mul_div_le n 10) as Hle.
        destruct Hlow as [E | (w' & E & Hw')].
        -- rewrite E. simpl. lia.
        -- rewrite E, pow10_S. lia.
Qed.

Lemma num_digits_spec (n : N) :
  (n < 10 ^ N.of_nat (num_digits n))%N
  /\ (num_digits n = 1%nat
      \/ exists w', num_digits n = S w' /\ (10 ^ N.of_nat w' <= n)%N).
Proof.
  apply num_digits_fuel_spec. rewrite N2Nat.id. apply N.size_gt.
Qed.

Lemma parse_int_print (n : N) (rest : string) :
  ends_digits rest = true ->
  parse_int (print_N n ++ rest) = Some (n, rest).
Proof.
  intros Hrest. unfold print_N.
  destruct (num_digits_spec n) as [Hup Hlow].
  pose proof (parse_digits_print (num_digits n) n rest 0 0) as Hrun.
  rewrite (parse_digits_stop rest _ _ Hrest) in Hrun.
  rewrite N.mod_small in Hrun by exact Hup. simpl in Hrun.
  destruct (num_digits n) as [|w] eqn:Ew.
  { destruct Hlow as [E | (w' & E & _)]; discriminate. }
  cbn [print_width append] in *.
  assert (Hd : ((n / 10 ^ N.of_nat w) mod 10 < 10)%N)
    by (apply N.mod_lt; lia).
  destruct (digit_char_spec _ Hd) as (Hcode & Hdig & Hval).
  unfold parse_int. rewrite Hdig. cbn [negb].
  destruct (N.eqb_spec (code (digit_char ((n / 10 ^ N.of_nat w) mod 10))) 48)
    as [E0 | Hne].
  - (* a leading zero: the number is 0 and has one digit *)
    rewrite Hcode in E0.
    assert (Hz : ((n / 10 ^ N.of_nat w) mod 10 = 0)%N) by lia.
    assert (Hsmall : (n / 10 ^ N.of_nat w < 10)%N).
    { apply N.Div0.div_lt_upper_bound. rewrite <- pow10_S. exact Hup. }
    rewrite N.mod_small in Hz by exact Hsmall.
    destruct Hlow as [E | (w' & E & Hw')].
    + injection E as ->. simpl in Hz, Hup. rewrite N.div_1_r in Hz.
      subst n. simpl.
      destruct rest as [|c rest]; [reflexivity|].
      simpl in Hrest. apply negb_true_iff in Hrest. now rewrite Hrest.
    + injection E as <-.
      pose proof (pow10_N_pos w) as Hpos.
      assert (1 <= n / 10 ^ N.of_nat w)%N.
      { apply N.div_le_lower_bound; lia. }
      lia.
  - rewrite Hrun. reflexivity.
Qed.

Lemma print_N_head (n : N) :
  exists v t, print_N n = String (digit_char v) t /\ (v < 10)%N.
Proof.
  unfold print_N. destruct (num_digits_spec n) as [_ Hlow].
  destruct (num_digits n) as [|w].
  { destruct Hlow as [E | (w' & E & _)]; discriminate. }
  cbn [print_width]. eexists _, _. split; [reflexivity|].
  apply N.mod_lt. lia.
Qed.

Lemma decimal_places_from_spec (fuel : nat) :
  forall d0 q d, decimal_places_from fuel d0 q = Some d -> is_integer_at q d = true.
Proof.
  induction fuel as [|fuel IH]; intros d0 q d; cbn [decimal_places_from];
    destruct (is_integer_at q d0) eqn:E; intros H;
    try (injection H as <-; exact E); try discriminate.
  now apply IH in H.
Qed.

Lemma decimal_places_from_found (fuel : nat) :
  forall d0 q k,
    (d0 <= k <= d0 + fuel)%nat -> is_integer_at q k = true ->
    decimal_places_from fuel d0 q <> None.
Proof.
  induction fuel as [|fuel IH]; intros d0 q k Hk Hint; cbn [decimal_places_from].
  - assert (k = d0) by lia. subst k. now rewrite Hint.
  - destruct (is_integer_at q d0) eqn:E; [discriminate|].
    apply (IH (S d0) q k); [|exact Hint].
    assert (k <> d0) by (intros ->; congruence). lia.
Qed.

Lemma pow10_Z_N (d : nat) : (10 ^ Z.of_nat d = Z.of_N (10 ^ N.of_nat d))%Z.
Proof. rewrite N2Z.inj_pow, nat_N_Z. reflexivity. Qed.

Lemma ends_number_head (c : ascii) (rest : string) :
  ends_number (String c rest) = true ->
  is_digit c = false /\ Ascii.eqb c "." = false
  /\ Ascii.eqb c "e" = false /\ Ascii.eqb c "E" = false.
Proof.
  simpl. intros H. apply negb_true_iff in H.
  destruct (is_digit c), (Ascii.eqb c "."), (Ascii.eqb c "e"), (Ascii.eqb c "E");
    simpl in H; try discriminate; repeat split.
Qed.

Lemma ends_number_digits (rest : string) :
  ends_number rest = true -> ends_digits rest = true.
Proof.
  destruct rest as [|c rest]; [reflexivity|]. intros H.
  apply ends_number_head in H as (H & _). simpl. now rewrite H.
Qed.

Lemma parse_number_print (q : Q) (rest : string) :
  plain_number q -> ends_number rest = true ->
  parse_number (Number_toString q ++ rest) = Some (q, rest).
Proof.
  intros [Hred Hdec] Hrest. unfold Number_toString.
  destruct (decimal_places q) as [d|] eqn:Ed; [|contradiction]. clear Hdec.
  apply decimal_places_from_spec in Ed. unfold is_integer_at in Ed.
  apply Z.eqb_eq in Ed.
  set (z := ((Qnum q * 10 ^ Z.of_nat d) / Z.pos (Qden q))%Z).
  assert (Hz : (Qnum q * 10 ^ Z.of_nat d = z * Z.pos (Qden q))%Z).
  { unfold z. pose proof (Z.div_mod (Qnum q * 10 ^ Z.of_nat d) (Z.pos (Qden q))
                            ltac:(lia)). lia. }
  clearbody z. cbv zeta.
  set (m := Z.abs_N z).
  set (p := (10 ^ N.of_nat d)%N).
  assert (Hp : (0 < p)%N) by apply pow10_N_pos.
  set (frac := match d with
               | O => ""
               | S _ => ("." ++ print_width d (m mod p))%string
               end).
  assert (Hends : ends_digits (frac ++ rest) = true).
  { unfold frac. destruct d; [|reflexivity]. simpl.
    now apply ends_number_digits. }
  assert (Hfrac : parse_fraction (frac ++ rest)
                  = Some (match d with O => 0%N | S _ => (m mod p)%N end, d, rest)).
  { unfold frac. destruct d as [|d'].
    - simpl. destruct rest as [|c rest]; [reflexivity|].
      apply ends_number_head in Hrest as (_ & Hpoint & _).
      simpl. now rewrite Hpoint.
    - cbn [append parse_fraction]. change (Ascii.eqb "." ".") with true. cbv iota.
      rewrite parse_digits_print.
      rewrite parse_digits_stop.
      + fold p. rewrite N.Div0.mod_mod. simpl. reflexivity.
      + now apply ends_number_digits. }
  assert (Hexp : parse_exponent rest = Some (0%Z, rest)).
  { destruct rest as [|c rest]; [reflexivity|].
    apply ends_number_head in Hrest as (_ & _ & He & HE).
    simpl. now rewrite He, HE. }
  assert (Hbody : forall neg : bool, neg = (z <? 0)%Z ->
    match parse_int (print_N (m / p) ++ frac ++ rest) with
    | None => None
    | Some (i, s1) =>
        match parse_fraction s1 with
        | None => None
        | Some (f, count, s2) =>
            match parse_exponent s2 with
            | None => None
            | Some (x, s3) =>
                Some (Qred (((if neg
                              then (- Z.of_N (i * 10 ^ N.of_nat count + f))%Z
                              else Z.of_N (i * 10 ^ N.of_nat count + f))
                             # Z.to_pos (10 ^ Z.of_nat count)) * 10 ^ x), s3)
            end
        end
    end = Some (q, rest)).
  { intros neg Hneg.
    rewrite (parse_int_print _ _ Hends), Hfrac, Hexp.
    f_equal. f_equal. rewrite <- Hred. apply Qred_complete.
    assert (Em : (m / p * 10 ^ N.of_nat d
                  + match d with O => 0 | S _ => m mod p end = m)%N).
    { fold p. pose proof (N.Div0.div_mod m p) as E.
      destruct d.
      - unfold p in *. simpl in *. rewrite N.div_1_r. lia.
      - lia. }
    rewrite Em. unfold m. rewrite N2Z.inj_abs_N.
    assert (Es : (if neg then (- Z.abs z)%Z else Z.abs z) = z).
    { subst neg. destruct (Z.ltb_spec z 0); lia. }
    rewrite Es.
    change (10 ^ 0) with 1. rewrite Qmult_1_r.
    unfold Qeq. cbn [Qnum Qden].
    rewrite Z2Pos.id by (apply Z.pow_pos_nonneg; lia).
    lia. }
  destruct (z <? 0)%Z eqn:Hneg; rewrite !append_assoc.
  - cbn [append]. unfold parse_number.
    change (Ascii.eqb "-" "-") with true. cbv beta iota zeta.
    exact (Hbody true eq_refl).
  - cbn [append].
    destruct (print_N_head (m / p)) as (v & t & Ehead & Hv).
    revert Hbody. rewrite Ehead. cbn [append]. intros Hbody.
    destruct (digit_char_spec v Hv) as (Hcode & _ & _).
    unfold parse_number.
    rewrite code_eqb by (rewrite Hcode; change (code "-") with 45%N; lia).
    cbv beta iota zeta.
    exact (Hbody false eq_refl).
Qed.

Lemma plain_char_spec (c : ascii) :
  plain_char c = true ->
  Ascii.eqb c dquote = false /\ Ascii.eqb c "\" = false /\ (32 <= code c)%N.
Proof.
  unfold plain_char. intros H.
  apply andb_true_iff in H as [H H3]. apply andb_true_iff in H as [H1 H2].
  apply negb_true_iff in H1, H2. apply N.leb_le in H3. now repeat split.
Qed.

Lemma escape_char_plain (c : ascii) :
  plain_char c = true -> escape_char c = String c "".
Proof.
  intros H. apply plain_char_spec in H as (H1 & H2 & H3).
  unfold escape_char. rewrite H1, H2.
  repeat match goal with
         | |- context [(code c =? ?n)%N] =>
             destruct (N.eqb_spec (code c) n); [lia|]
         end.
  destruct (N.ltb_spec (code c) 32); [lia | reflexivity].
Qed.

Lemma escape_plain (s : string) : plain s = true -> escape s = s.
Proof.
  induction s as [|c s IH]; [reflexivity|]. cbn [plain escape]. intros H.
  apply andb_true_iff in H as [Hc Hs].
  rewrite (escape_char_plain c Hc), (IH Hs). reflexivity.
Qed.

Lemma parse_chars_plain (s rest : string) :
  plain s = true -> parse_chars (s ++ String dquote rest) = Some (s, rest).
Proof.
  induction s as [|c s IH]; cbn [plain append parse_chars]; intros H.
  - change (Ascii.eqb dquote dquote) with true. reflexivity.
  - apply andb_true_iff in H as [Hc Hs].
    apply plain_char_spec in Hc as (H1 & H2 & H3).
    rewrite H1, H2.
    destruct (N.ltb_spec (code c) 32); [lia|].
    rewrite (IH Hs). reflexivity.
Qed.

Lemma parse_string_quote (s rest : string) :
  plain s = true -> parse_string (quote s ++ rest) = Some (s, rest).
Proof.
  intros H. unfold quote. cbn [append parse_string].
  change (Ascii.eqb dquote dquote) with true. cbv iota.
  rewrite append_assoc. cbn [append].
  rewrite (escape_plain s H). now apply parse_chars_plain.
Qed.

Lemma skip_ws_head (c : ascii) (t : string) :
  is_ws c = false -> skip_ws (String c t) = String c t.
Proof. intros H. simpl. now rewrite H. Qed.

Lemma digit_not_ws (v : N) :
  (v < 10)%N ->
  is_ws (digit_char v) = false /\ Ascii.eqb (digit_char v) dquote = false.
Proof.
  intros Hv. destruct (digit_char_spec v Hv) as (Hcode & _ & _). split.
  - unfold is_ws. rewrite Hcode.
    repeat match goal with
           | |- context [(?a =? ?n)%N] => destruct (N.eqb_spec a n); [lia|]
           end.
    reflexivity.
  - apply code_eqb. rewrite Hcode. change (code dquote) with 34%N. lia.
Qed.

Lemma Number_toString_head (q : Q) :
  exists c t, Number_toString q = String c t
              /\ is_ws c = false /\ Ascii.eqb c dquote = false.
Proof.
  unfold Number_toString. destruct (decimal_places q) as [d|].
  - cbv zeta.
    match goal with |- context [if ?b then _ else _] => destruct b end.
    + cbn [append]. eexists _, _. split; [reflexivity|]. split; reflexivity.
    + cbn [append].
      match goal with |- context [print_N ?n] =>
        destruct (print_N_head n) as (v & t & E & Hv); rewrite E end.
      cbn [append]. eexists _, _. split; [reflexivity|].
      now apply digit_not_ws.
  - eexists _, _. split; [reflexivity|]. split; reflexivity.
Qed.

Lemma value_text_head (v : value) :
  exists c t, value_text v = String c t /\ is_ws c = false.
Proof.
  destruct v as [q|s].
  - destruct (Number_toString_head q) as (c & t & E & Hws & _). now exists c, t.
  - eexists _, _. split; [reflexivity|]. reflexivity.
Qed.

Lemma parse_value_text (v : value) (rest : string) :
  plain_value v -> ends_number rest = true ->
  parse_value (value_text v ++ rest) = Some (v, rest).
Proof.
  destruct v as [q|s]; cbn [plain_value value_text]; intros Hv Hrest.
  - pose proof (parse_number_print q rest Hv Hrest) as Hrun.
    destruct (Number_toString_head q) as (c & t & E & _ & Hq).
    rewrite E in *. cbn [append] in *. unfold parse_value.
    rewrite Hq, Hrun. reflexivity.
  - pose proof (parse_string_quote s rest Hv) as Hrun.
    unfold quote in *. cbn [append] in *. unfold parse_value.
    change (Ascii.eqb dquote dquote) with true. cbv iota.
    rewrite Hrun. reflexivity.
Qed.

Lemma join_members_tail (ms : list (string * value)) :
  forall m rest,
    (join ("," ++ nl ++ "    ") (map member_text (m :: ms))
     ++ nl ++ "  " ++ "}" ++ rest)%string
    = (member_text m ++ members_tail ms rest)%string.
Proof.
  induction ms as [|m' ms IH]; intros m rest.
  - reflexivity.
  - change (join ("," ++ nl ++ "    ") (map member_text (m :: m' :: ms)))
      with (member_text m ++ ("," ++ nl ++ "    ")
            ++ join ("," ++ nl ++ "    ") (map member_text (m' :: ms)))%string.
    rewrite !append_assoc. rewrite IH. reflexivity.
Qed.

Lemma object_text_cons (m : string * value) (ms : list (string * value))
      (rest : string) :
  (object_text (m :: ms) ++ rest)%string
  = String "{" (String newline ("    " ++ member_text m ++ members_tail ms rest)).
Proof.
  unfold object_text. rewrite !append_assoc.
  rewrite (join_members_tail ms m rest). reflexivity.
Qed.

Lemma member_text_head (m : string * value) (rest : string) :
  exists t, (member_text m ++ rest)%string = String dquote t.
Proof. destruct m as [k v]. eexists. reflexivity. Qed.

Lemma members_tail_ends (ms : list (string * value)) (rest : string) :
  ends_number (members_tail ms rest) = true.
Proof. destruct ms; reflexivity. Qed.

Lemma parse_members_step (k : string) (v : value) (tail : string)
      (f : nat) (o : object value) :
  plain_member (k, v) -> ends_number tail = true ->
  parse_members (S f) (member_text (k, v) ++ tail) o
  = match skip_ws tail with
    | "" => None
    | String c' s4 =>
        if Ascii.eqb c' "," then parse_members f (skip_ws s4) (set o k v)
        else if Ascii.eqb c' "}" then Some (set o k v, s4)
        else None
    end.
Proof.
  intros [Hk Hv] Htail. cbn [fst snd] in *.
  unfold member_text. cbn [fst snd]. rewrite !append_assoc.
  cbn [parse_members]. rewrite (parse_string_quote k _ Hk).
  cbn [append]. rewrite skip_ws_head by reflexivity.
  change (Ascii.eqb ":" ":") with true. cbn [negb].
  destruct (value_text_head v) as (c & t & E & Hws).
  assert (Hskip : skip_ws (String " " (value_text v ++ tail))
                  = (value_text v ++ tail)%string).
  { rewrite E. cbn [append]. simpl. now rewrite Hws. }
  rewrite Hskip, (parse_value_text v tail Hv Htail). reflexivity.
Qed.

Lemma parse_members_text (ms : list (string * value)) :
  forall m f o rest,
    Forall plain_member (m :: ms) -> (List.length (m :: ms) <= f)%nat ->
    parse_members f (member_text m ++ members_tail ms rest) o
    = Some (fold_left setm (m :: ms) o, rest).
Proof.
  induction ms as [|m' ms IH]; intros [k v] f o rest Hall Hf;
    destruct f as [|f]; try (simpl in Hf; lia);
    rewrite parse_members_step
      by (try (now inversion Hall); apply members_tail_ends).
  - reflexivity.
  - cbn [members_tail]. rewrite skip_ws_head by reflexivity.
    change (Ascii.eqb "," ",") with true. cbv iota.
    destruct (member_text_head m' (members_tail ms rest)) as [t Et].
    assert (Hskip : skip_ws (String newline ("    " ++ member_text m'
                                              ++ members_tail ms rest))
                    = (member_text m' ++ members_tail ms rest)%string).
    { rewrite Et. reflexivity. }
    rewrite Hskip, IH; [reflexivity | now inversion Hall | simpl in *; lia].
Qed.

Lemma set_fresh (o : object value) (k : string) (v : value) :
  ~ In k (map fst o) -> set o k v = o ++ [(k, v)].
Proof.
  induction o as [|[k0 v0] o IH]; intros Hk; [reflexivity|].
  cbn [set]. destruct (String.eqb_spec k k0) as [->|Hne].
  - exfalso. apply Hk. now left.
  - cbn [app]. rewrite IH; [reflexivity|]. intros Hin. apply Hk. now right.
Qed.

Lemma fold_setm_distinct (ms : list (string * value)) :
  forall o, NoDup (map fst (o ++ ms)) -> fold_left setm ms o = o ++ ms.
Proof.
  induction ms as [|[k v] ms IH]; intros o Hnd.
  - now rewrite app_nil_r.
  - cbn [fold_left]. unfold setm at 2. cbn [fst snd].
    assert (Hfresh : ~ In k (map fst o)).
    { rewrite map_app in Hnd. cbn [map fst] in Hnd.
      apply NoDup_remove_2 in Hnd. intros Hin. apply Hnd.
      apply in_or_app. now left. }
    rewrite (set_fresh o k v Hfresh), IH; rewrite <- app_assoc; [reflexivity|].
    exact Hnd.
Qed.

Lemma parse_object_text (o : object value) (f : nat) (rest : string) :
  plain_object o -> (List.length o <= f)%nat ->
  parse_object f (object_text o ++ rest) = Some (o, rest).
Proof.
  intros [Hall Hnd] Hf. destruct o as [|m ms].
  - reflexivity.
  - rewrite object_text_cons. unfold parse_object.
    change (Ascii.eqb "{" "{") with true. cbn [negb].
    destruct (member_text_head m (members_tail ms rest)) as [t Et].
    assert (Hskip : skip_ws (String newline ("    " ++ member_text m
                                              ++ members_tail ms rest))
                    = (member_text m ++ members_tail ms rest)%string).
    { rewrite Et. reflexivity. }
    rewrite Hskip. rewrite Et at 1.
    change (Ascii.eqb dquote "}") with false. cbv iota.
    rewrite <- Et, (parse_members_text ms m f [] rest Hall Hf).
    now rewrite (fold_setm_distinct (m :: ms) []).
Qed.

Lemma join_elements_tail (os : list (object value)) :
  forall o rest,
    (join ("," ++ nl ++ "  ") (map object_text (o :: os)) ++ nl ++ "]" ++ rest)%string
    = (object_text o ++ elements_tail os rest)%string.
Proof.
  induction os as [|o' os IH]; intros o rest.
  - reflexivity.
  - change (join ("," ++ nl ++ "  ") (map object_text (o :: o' :: os)))
      with (object_text o ++ ("," ++ nl ++ "  ")
            ++ join ("," ++ nl ++ "  ") (map object_text (o' :: os)))%string.
    rewrite !append_assoc. rewrite IH. reflexivity.
Qed.

Lemma stringify_cons (o : object value) (os : list (object value)) :
  stringify (o :: os)
  = String "[" (String newline ("  " ++ object_text o ++ elements_tail os "")).
Proof.
  unfold stringify. rewrite <- (join_elements_tail os o "").
  reflexivity.
Qed.

Lemma object_text_head (o : object value) (rest : string) :
  exists t, (object_text o ++ rest)%string = String "{" t.
Proof. destruct o; eexists; reflexivity. Qed.

Lemma parse_elements_text (os : list (object value)) :
  forall o f depth rest,
    Forall plain_object (o :: os) ->
    (List.length (o :: os) <= f)%nat ->
    Forall (fun o' => (List.length o' <= depth)%nat) (o :: os) ->
    parse_elements f depth (object_text o ++ elements_tail os rest)
    = Some (o :: os, rest).
Proof.
  induction os as [|o' os IH]; intros o f depth rest Hall Hf Hdepth;
    destruct f as [|f]; try (simpl in Hf; lia);
    cbn [parse_elements];
    rewrite parse_object_text by first [now inversion Hall | now inversion Hdepth].
  - reflexivity.
  - cbn [elements_tail]. rewrite skip_ws_head by reflexivity.
    change (Ascii.eqb "," ",") with true. cbv iota.
    destruct (object_text_head o' (elements_tail os rest)) as [t Et].
    assert (Hskip : skip_ws (String newline ("  " ++ object_text o'
                                              ++ elements_tail os rest))
                    = (object_text o' ++ elements_tail os rest)%string).
    { rewrite Et. reflexivity. }
    rewrite Hskip, IH;
      [reflexivity | now inversion Hall | simpl in *; lia | now inversion Hdepth].
Qed.

Lemma length_append (a b : string) :
  String.length (a ++ b) = (String.length a + String.length b)%nat.
Proof. induction a as [|c a IH]; simpl; [reflexivity | now rewrite IH]. Qed.

Lemma members_tail_length (ms : list (string * value)) (rest : string) :
  (List.length ms + String.length rest <= String.length (members_tail ms rest))%nat.
Proof.
  induction ms as [|m ms IH]; cbn [members_tail List.length String.length];
    rewrite !length_append; lia.
Qed.

Lemma object_text_length (o : object value) (rest : string) :
  (S (List.length o) + String.length rest <= String.length (object_text o ++ rest))%nat.
Proof.
  destruct o as [|m ms].
  - simpl. lia.
  - rewrite object_text_cons. cbn [String.length List.length].
    rewrite !length_append.
    pose proof (members_tail_length ms rest). lia.
Qed.

Lemma elements_tail_length (os : list (object value)) (rest : string) :
  (List.length os <= String.length (elements_tail os rest))%nat
  /\ Forall (fun o => (List.length o <= String.length (elements_tail os rest))%nat) os.
Proof.
  induction os as [|o os [IHn IHd]]; [split; [simpl; lia | constructor]|].
  cbn [elements_tail List.length String.length].
  rewrite !length_append.
  pose proof (object_text_length o (elements_tail os rest)) as Ho.
  rewrite length_append in Ho. split; [lia|]. constructor; [lia|].
  eapply Forall_impl; [|exact IHd]. cbv beta. intros o' Ho'. lia.
Qed.

Lemma parse_stringify (arr : list (object value)) :
  Forall plain_object arr -> parse (stringify arr) = Some arr.
Proof.
  intros Hall. destruct arr as [|o os]; [reflexivity|].
  unfold parse. rewrite stringify_cons.
  rewrite skip_ws_head by reflexivity.
  set (body := (object_text o ++ elements_tail os "")%string).
  set (fuel := String.length _).
  unfold parse_array. change (Ascii.eqb "[" "[") with true. cbn [negb].
  destruct (object_text_head o (elements_tail os "")) as [t Et].
  assert (Hskip : skip_ws (String newline ("  " ++ body)) = body).
  { unfold body. rewrite Et. reflexivity. }
  rewrite Hskip. unfold body at 1. rewrite Et.
  change (Ascii.eqb "{" "]") with false. cbv iota. rewrite <- Et.
  assert (Hfuel : (String.length body <= fuel)%nat).
  { unfold fuel. cbn [String.length append]. lia. }
  pose proof (object_text_length o (elements_tail os "")) as Ho.
  destruct (elements_tail_length os "") as [Hn Hd].
  fold body in Ho.
  rewrite parse_elements_text.
  - reflexivity.
  - exact Hall.
  - simpl. lia.
  - constructor; [lia|]. eapply Forall_impl; [|exact Hd]. cbv beta. intros o' Ho'. lia.
Qed.

End JSONFacts.

(** ** The exported text is read back as the history *)

Lemma plain_number_toFixed (d : nat) (x : Q) :
  (d <= 1074)%nat -> JSON.plain_number (toFixed d x).
Proof.
  intros Hd. unfold toFixed. cbv zeta.
  set (n := if Qle_bool 0 x then _ else _).
  set (p := Z.to_pos (10 ^ Z.of_nat d)).
  split; [apply Qred_complete, Qred_correct |].
  apply (JSONFacts.decimal_places_from_found 1074 0 _ d); [lia |].
  unfold JSON.is_integer_at. apply Z.eqb_eq.
  pose proof (Qred_correct (n # p)) as E. unfold Qeq in E. cbn [Qnum Qden] in E.
  assert (Hp : Z.pos p = (10 ^ Z.of_nat d)%Z).
  { unfold p. apply Z2Pos.id. apply Z.pow_pos_nonneg; lia. }
  rewrite <- Hp, E. apply Z.mod_mul. discriminate.
Qed.

Lemma Qred_inject_Z (z : Z) : Qred (inject_Z z) = inject_Z z.
Proof.
  pose proof (Qred_correct (inject_Z z)) as E.
  pose proof (gcd_Qred (inject_Z z)) as G.
  destruct (Qred (inject_Z z)) as [n d].
  unfold Qeq in E. cbn [Qnum Qden inject_Z] in *.
  assert (En : n = (Z.pos d * z)%Z) by lia. subst n.
  rewrite Z.gcd_comm, Z.gcd_mul_diag_l in G by lia.
  injection G as ->. unfold inject_Z. f_equal. lia.
Qed.

Lemma plain_number_inject_Z (z : Z) : JSON.plain_number (inject_Z z).
Proof.
  split.
  - apply Qred_inject_Z.
  - apply (JSONFacts.decimal_places_from_found 1074 0 _ 0%nat); [lia |].
    unfold JSON.is_integer_at. cbn [inject_Z Qnum Qden].
    apply Z.eqb_eq. apply Z.mod_1_r.
Qed.

Lemma plain_label (l : string) : In l labels -> JSON.plain l = true.
Proof.
  intros H. unfold labels in H. cbn [In] in H.
  destruct H as [<- | [<- | [<- | [<- | [<- | []]]]]]; reflexivity.
Qed.

Lemma properties_keys (s : SensorData.t) : NoDup (map fst (properties s)).
Proof.
  cbn [properties map fst].
  repeat (constructor; [cbn [In]; intuition discriminate |]).
  constructor.
Qed.

(** A sample whose text determines it: the channels and the confidence
    are decimals in lowest terms and the label is one of the five. *)
Lemma plain_object_properties (s : SensorData.t) :
  JSON.plain_number (SensorData.heartRate s) ->
  JSON.plain_number (SensorData.eda s) ->
  JSON.plain_number (SensorData.temperature s) ->
  In (SensorData.emotion s) labels ->
  JSON.plain_number (SensorData.confidence s) ->
  JSON.plain_object (properties s).
Proof.
  intros Hhr Hed Hte Hem Hco. split; [| apply properties_keys].
  unfold properties.
  repeat (constructor;
          [split; [reflexivity
                  | cbn [snd JSON.plain_value];
                    first [assumption | apply plain_number_inject_Z
                          | now apply plain_label]] |]).
  constructor.
Qed.

Lemma generateSensorData_plain (random : nat -> Q)
  (prevData : option SensorData.t) (now : Z) (k : nat) :
  exists s,
    generateSensorData random prevData now k = Normal (s, S (S (S (S k)))) /\
    forall ts, (fun r => JSON.plain_object (properties r)) (set_timestamp s ts).
Proof.
  destruct (generateSensorData_run random prevData now k)
    as (hr & ed & te & c & _ & _ & _ & _ & Hin & _ & Hrun).
  eexists. split; [exact Hrun |]. intros ts. cbv beta.
  apply plain_object_properties;
    cbn [set_timestamp SensorData.heartRate SensorData.eda
         SensorData.temperature SensorData.emotion SensorData.confidence];
    first [exact Hin | apply plain_number_toFixed; lia].
Qed.

Lemma toSensorData_properties (s : SensorData.t) :
  toSensorData (properties s) = Some s.
Proof. destruct s. reflexivity. Qed.

Lemma all_some_map {A B} (f : A -> option B) (g : B -> A) (l : list B) :
  (forall b, f (g b) = Some b) -> all_some (map f (map g l)) = Some l.
Proof.
  intros H. induction l as [| b l IH]; [reflexivity |].
  cbn [map all_some]. rewrite H, IH. reflexivity.
Qed.

Lemma exportData_parse (h : list SensorData.t) :
  Forall (fun s => JSON.plain_object (properties s)) h ->
  JSON.parse (exportData h) = Some (map properties h) /\
  importData (exportData h) = Some h.
Proof.
  intros Hall.
  assert (E : JSON.parse (exportData h) = Some (map properties h)).
  { apply JSONFacts.parse_stringify. apply Forall_map. exact Hall. }
  split; [exact E |].
  unfold importData. rewrite E.
  apply all_some_map. exact toSensorData_properties.
Qed.

(** C9: the text that [exportData] produces for the retained history,
    before the mount effect has run (the empty history) and in every
    state reached afterwards, is read back by [JSON.parse] as the array
    of the same records in the same order, each with the six fields
    timestamp, heartRate, eda, temperature, emotion and confidence in
    this order and with the values of the sample; read as [SensorData[]]
    it is the history itself. *)
Theorem exportData_round_trip :
  forall (random : nat -> Q) (st : AppState) (k : nat),
    st = initialState \/ reachable random st k ->
    JSON.parse (exportData (sensorData st))
      = Some (map properties (sensorData st)) /\
    map (map fst) (map properties (sensorData st))
      = map (fun _ => ["timestamp"; "heartRate"; "eda"; "temperature";
                       "emotion"; "confidence"]) (sensorData st) /\
    importData (exportData (sensorData st)) = Some (sensorData st).
Proof.
  intros random st k H.
  assert (Hall : Forall (fun s => JSON.plain_object (properties s))
                   (sensorData st)).
  { destruct H as [-> | H]; [constructor |].
    apply (reachable_invariant random _ (generateSensorData_plain random)
             st k H). }
  destruct (exportData_parse (sensorData st) Hall) as [Hparse Himport].
  split; [exact Hparse |]. split; [| exact Himport].
  rewrite map_map. apply map_ext. reflexivity.
Qed.

Lemma exportData_round_trip_witness :
  exists st,
    reachable midpoint st 204%nat /\
    JSON.parse (exportData (sensorData st))
      = Some (map properties (sensorData st)) /\
    map (map fst) (map properties (sensorData st))
      = map (fun _ => ["timestamp"; "heartRate"; "eda"; "temperature";
                       "emotion"; "confidence"]) (sensorData st) /\
    importData (exportData (sensorData st)) = Some (sensorData st).
Proof.
  eexists. split.
  - apply (reach_mount midpoint 0%Z). vm_compute. reflexivity.
  - apply (exportData_round_trip midpoint _ 204%nat). right.
    apply (reach_mount midpoint 0%Z). vm_compute. reflexivity.
Defined.
